(** * A WebSocket relay: the connection registry (Room) and its coordinator

    Shallow embedding of [src/types/Room.js] and of the WebSocket event
    handlers of [src/app.js].

    - The registry [this.clients] is a JavaScript [Map]: an insertion-ordered
      association from identity to record, modelled by an association list
      whose [set] keeps the position of an existing key.
    - WebSocket objects are mutable and shared between the registry, the
      transport and the coordinator; they live in a heap indexed by handles.
    - JavaScript exceptions are explicit: a computation returns or throws,
      and [tryCatch] embeds [try { ... } catch (error) { ... }].
    - The runtime's built-ins ([JSON.parse], [JSON.stringify],
      [Date.prototype.toISOString]) form an interface, [Runtime]; every
      theorem holds for every implementation of it. *)

From Stdlib Require Import List String Ascii ZArith NArith Lia Bool Arith.
From Stdlib Require Import DecimalString.
From Stdlib.Strings Require Import Byte.
Import ListNotations.

Open Scope string_scope.

(** ** JavaScript values that travel through the relay *)

(** Structured payloads, as produced by [JSON.parse] and by object
    literals.  Numbers are kept as integers: the server hands payloads
    on and never looks into them. *)
#[warnings="-register-all"] Inductive JsValue : Type :=
| JNull
| JBool (b : bool)
| JNum (n : Z)
| JStr (s : string)
| JArr (items : list JsValue)
| JObj (fields : list (string * JsValue)).

(** An [Error] object: its constructor name and its [message] property.
    What the transport and the runtime throw are such objects. *)
Record JsError : Type := mkError { errorName : string; errorMessage : string }.

(** ** The insertion-ordered [Map] *)

Module JsMap.

Section Ops.

Context {V : Type}.

Definition t := list (string * V).

Definition empty : t := [].

(** [Map.prototype.get]; [None] is [undefined]. *)
Fixpoint get (k : string) (m : t) : option V :=
  match m with
  | [] => None
  | (k', v) :: rest => if String.eqb k' k then Some v else get k rest
  end.

(** [Map.prototype.has]. *)
Definition has (k : string) (m : t) : bool :=
  match get k m with Some _ => true | None => false end.

(** [Map.prototype.set]: an existing key keeps its place in the
    iteration order and gets the new value; a new key goes last. *)
Fixpoint set (k : string) (v : V) (m : t) : t :=
  match m with
  | [] => [(k, v)]
  | (k', v') :: rest =>
      if String.eqb k' k then (k, v) :: rest else (k', v') :: set k v rest
  end.

(** The entries left by [Map.prototype.delete]. *)
Fixpoint remove (k : string) (m : t) : t :=
  match m with
  | [] => []
  | (k', v') :: rest =>
      if String.eqb k' k then rest else (k', v') :: remove k rest
  end.

(** [Map.prototype.delete]: whether the key was there, and the map
    afterwards. *)
Definition delete (k : string) (m : t) : bool * t := (has k m, remove k m).

(** [Map.prototype.size]. *)
Definition size (m : t) : nat := List.length m.

(** [Map.prototype.keys], in iteration order. *)
Definition keys (m : t) : list string := List.map fst m.

End Ops.

Arguments t : clear implicits.

End JsMap.

(** ** Buffers and hexadecimal encoding *)

Definition hexDigit (n : N) : ascii :=
  match n with
  | 0%N => "0" | 1%N => "1" | 2%N => "2" | 3%N => "3"
  | 4%N => "4" | 5%N => "5" | 6%N => "6" | 7%N => "7"
  | 8%N => "8" | 9%N => "9" | 10%N => "a" | 11%N => "b"
  | 12%N => "c" | 13%N => "d" | 14%N => "e" | _ => "f"
  end%char.

(** [buf.toString('hex')]: two lower-case digits per byte, high nibble
    first. *)
Fixpoint Buffer_toString_hex (buf : list byte) : string :=
  match buf with
  | [] => EmptyString
  | b :: rest =>
      String (hexDigit (Byte.to_N b / 16))
        (String (hexDigit (Byte.to_N b mod 16)) (Buffer_toString_hex rest))
  end.

(** Reading hexadecimal text back, to show that the encoding loses
    nothing. *)
Definition hexValue (c : ascii) : option N :=
  let n := N_of_ascii c in
  if (48 <=? n)%N && (n <=? 57)%N then Some (n - 48)%N
  else if (97 <=? n)%N && (n <=? 102)%N then Some (n - 87)%N
  else None.

Fixpoint Buffer_from_hex (s : string) : option (list byte) :=
  match s with
  | EmptyString => Some []
  | String hi (String lo rest) =>
      match hexValue hi, hexValue lo, Buffer_from_hex rest with
      | Some h, Some l, Some bs =>
          match Byte.of_N (h * 16 + l) with
          | Some b => Some (b :: bs)
          | None => None
          end
      | _, _, _ => None
      end
  | String _ EmptyString => None
  end.

Definition isHexDigit (c : ascii) : bool :=
  match hexValue c with Some _ => true | None => false end.

Fixpoint allChars (p : ascii -> bool) (s : string) : bool :=
  match s with
  | EmptyString => true
  | String c rest => p c && allChars p rest
  end.

(** ** The world the server runs in *)

(** A handle denotes a WebSocket object of the transport. *)
Definition handle := nat.

(** What the registry needs of a WebSocket object: the [clientId]
    property that [join] attaches ([None] while it is [undefined]), the
    [readyState], how [send] reacts to a payload ([Some e]: it throws
    [e]), and the payloads written so far. *)
Record WebSocket : Type := mkWebSocket {
  clientId : option string;
  readyState : Z;
  sendFails : string -> option JsError;
  sent : list string
}.

(** The record [{ ws, id, joinedAt }] stored per client. *)
Record ClientInfo : Type := mkClientInfo {
  ws : handle;
  id : string;
  joinedAt : Z
}.

Inductive Level : Type := info | warn | error.

(** The template literals handed to [SocketLogger], one constructor per
    call site, with the interpolated values. *)
Inductive LogMsg : Type :=
| RoomCreated
| ClientJoined (clientId : string) (size : nat)
| LeaveWithoutId
| ClientLeft (clientId : string) (size : nat)
| LeaveUnknown (clientId : string)
| BroadcastStart (size : nat)
| BroadcastClosed (clientId : string)
| BroadcastSendFailed (clientId : string) (msg : string)
| BroadcastDone (successCount failCount : nat)
| UnicastNotFound (clientId : string)
| UnicastSent (clientId : string)
| UnicastClosed (clientId : string)
| UnicastSendFailed (clientId : string) (msg : string)
| RoomCleared (previousCount : nat)
| ConnectionOpened
| MessageReceived (messageStr : string)
| MessageFailed (msg : string)
| ConnectionClosed
| TransportError (msg : string).

Record World : Type := mkWorld {
  clients : JsMap.t ClientInfo;        (* room.clients *)
  heap : handle -> WebSocket;          (* the WebSocket objects *)
  socketLog : list (Level * LogMsg);   (* what SocketLogger received *)
  consoleOut : list (option string);   (* what console.log received *)
  entropy : nat -> byte;               (* the bytes crypto will deliver *)
  drawn : nat;                         (* how many were consumed *)
  clock : nat -> Z;                    (* the time at each reading *)
  ticks : nat                          (* how many readings were made *)
}.

Definition withClients (f : JsMap.t ClientInfo -> JsMap.t ClientInfo)
  (w : World) : World :=
  mkWorld (f (clients w)) (heap w) (socketLog w) (consoleOut w)
    (entropy w) (drawn w) (clock w) (ticks w).

Definition withHeap (f : (handle -> WebSocket) -> handle -> WebSocket)
  (w : World) : World :=
  mkWorld (clients w) (f (heap w)) (socketLog w) (consoleOut w)
    (entropy w) (drawn w) (clock w) (ticks w).

Definition withSocketLog (f : list (Level * LogMsg) -> list (Level * LogMsg))
  (w : World) : World :=
  mkWorld (clients w) (heap w) (f (socketLog w)) (consoleOut w)
    (entropy w) (drawn w) (clock w) (ticks w).

Definition withConsoleOut (f : list (option string) -> list (option string))
  (w : World) : World :=
  mkWorld (clients w) (heap w) (socketLog w) (f (consoleOut w))
    (entropy w) (drawn w) (clock w) (ticks w).

Definition withDrawn (n : nat) (w : World) : World :=
  mkWorld (clients w) (heap w) (socketLog w) (consoleOut w)
    (entropy w) n (clock w) (ticks w).

Definition withTicks (n : nat) (w : World) : World :=
  mkWorld (clients w) (heap w) (socketLog w) (consoleOut w)
    (entropy w) (drawn w) (clock w) n.

(** Replacing one object of the heap. *)
Definition updateObject (h : handle) (f : WebSocket -> WebSocket)
  (hp : handle -> WebSocket) : handle -> WebSocket :=
  fun h' => if Nat.eqb h' h then f (hp h') else hp h'.

(** ** Computations that return or throw *)

Inductive Outcome (A : Type) : Type :=
| Returns (a : A)
| Throws (e : JsError).

Arguments Returns {A} a.
Arguments Throws {A} e.

Definition Js (A : Type) : Type := World -> Outcome A * World.

Definition ret {A} (a : A) : Js A := fun w => (Returns a, w).

Definition throw {A} (e : JsError) : Js A := fun w => (Throws e, w).

Definition bind {A B} (c : Js A) (k : A -> Js B) : Js B :=
  fun w =>
    match c w with
    | (Returns a, w') => k a w'
    | (Throws e, w') => (Throws e, w')
    end.

(** [try { body } catch (error) { handler }]: what [body] did before it
    threw stays done. *)
Definition tryCatch {A} (body : Js A) (handler : JsError -> Js A) : Js A :=
  fun w =>
    match body w with
    | (Returns a, w') => (Returns a, w')
    | (Throws e, w') => handler e w'
    end.

Definition gets {A} (f : World -> A) : Js A := fun w => (Returns (f w), w).

Definition modify (f : World -> World) : Js unit := fun w => (Returns tt, f w).

Declare Scope js_scope.
Delimit Scope js_scope with js.
Notation "x <- c ;; k" := (bind c (fun x => k))
  (at level 61, c at next level, right associativity) : js_scope.
Notation "c ;; k" := (bind c (fun _ => k))
  (at level 61, right associativity) : js_scope.
Open Scope js_scope.

(** ** Primitives of the platform *)

(** [SocketLogger.info / warn / error]: a sink. *)
Definition SocketLogger (lvl : Level) (msg : LogMsg) : Js unit :=
  modify (withSocketLog (fun l => (l ++ [(lvl, msg)])%list)).

(** [console.log('Cookies:', cookies)]. *)
Definition console_log (v : option string) : Js unit :=
  modify (withConsoleOut (fun l => (l ++ [v])%list)).

(** [crypto.randomBytes(n)]: the next [n] bytes of the entropy source. *)
Definition crypto_randomBytes (n : nat) : Js (list byte) :=
  fun w => (Returns (List.map (entropy w) (List.seq (drawn w) n)),
            withDrawn (drawn w + n) w).

(** [new Date()]: one reading of the clock. *)
Definition newDate : Js Z :=
  fun w => (Returns (clock w (ticks w)), withTicks (S (ticks w)) w).

(** [client.readyState]. *)
Definition getReadyState (client : handle) : Js Z :=
  gets (fun w => readyState (heap w client)).

(** [client.clientId]. *)
Definition getClientId (client : handle) : Js (option string) :=
  gets (fun w => clientId (heap w client)).

(** [client.clientId = id]. *)
Definition setClientId (client : handle) (i : string) : Js unit :=
  modify (withHeap (updateObject client (fun o =>
    mkWebSocket (Some i) (readyState o) (sendFails o) (sent o)))).

(** [client.send(data)]: the transport's write, which may throw. *)
Definition ws_send (client : handle) (data : string) : Js unit :=
  fun w =>
    match sendFails (heap w client) data with
    | Some e => (Throws e, w)
    | None =>
        (Returns tt,
         withHeap (updateObject client (fun o =>
           mkWebSocket (clientId o) (readyState o) (sendFails o)
             (sent o ++ [data])%list)) w)
    end.

(** Truthiness of an optional string argument: [null], [undefined] and
    [""] are falsy. *)
Definition truthy (s : option string) : bool :=
  match s with
  | Some s' => negb (String.eqb s' "")
  | None => false
  end.

(** The string held by a truthy optional string. *)
Definition stringOf (s : option string) : string :=
  match s with Some s' => s' | None => EmptyString end.

(** [a || b] on an optional string: [b] is evaluated only when [a] is
    falsy. *)
Definition orElse (a : option string) (b : Js string) : Js string :=
  if truthy a then ret (stringOf a) else b.

(** [str.split(sep)] for a one-character separator. *)
Fixpoint String_split_from (sep : ascii) (acc : string) (s : string)
  : list string :=
  match s with
  | EmptyString => [acc]
  | String c rest =>
      if Ascii.eqb c sep then acc :: String_split_from sep EmptyString rest
      else String_split_from sep (acc ++ String c EmptyString) rest
  end.

Definition String_split (sep : ascii) (s : string) : list string :=
  String_split_from sep EmptyString s.

(** ** The built-ins of the runtime *)

(** The built-ins of the JavaScript runtime that the server calls.
    - [JSON_stringify]: the text, or the error it throws (a cyclic
      object, a BigInt);
    - [JSON_parse]: the value, or the [SyntaxError] it throws;
    - [toISOString]: [Date.prototype.toISOString]. *)
Class Runtime : Type := mkRuntime {
  JSON_stringify : JsValue -> JsError + string;
  JSON_parse : string -> JsError + JsValue;
  toISOString : Z -> string
}.

Definition stringify {R : Runtime} (message : JsValue) : Js string :=
  match JSON_stringify message with
  | inl e => throw e
  | inr text => ret text
  end.

Definition parse {R : Runtime} (text : string) : Js JsValue :=
  match JSON_parse text with
  | inl e => throw e
  | inr v => ret v
  end.

(** ** The registry: [class Room] *)

(** [constructor()], Room.js 35-45. *)
Definition Room_new : Js unit :=
  modify (withClients (fun _ => JsMap.empty)) ;;
  SocketLogger info RoomCreated.

(** [join(client, clientId = null)], Room.js 58-79. *)
Definition join (client : handle) (clientId : option string) : Js string :=
  id <- orElse clientId
          (buf <- crypto_randomBytes 8 ;; ret (Buffer_toString_hex buf)) ;;
  joinedAt <- newDate ;;
  let clientInfo := mkClientInfo client id joinedAt in
  modify (withClients (JsMap.set id clientInfo)) ;;
  size <- gets (fun w => JsMap.size (clients w)) ;;
  SocketLogger info (ClientJoined id size) ;;
  setClientId client id ;;
  ret id.

(** [this.clients.delete(clientId)]. *)
Definition clients_delete (clientId : string) : Js bool :=
  fun w =>
    let (removed, m) := JsMap.delete clientId (clients w) in
    (Returns removed, withClients (fun _ => m) w).

(** [leave(clientOrId)], Room.js 91-120.  The argument is an identity
    ([inl], the [typeof clientOrId === 'string'] branch) or a WebSocket
    object ([inr]). *)
Definition leave (clientOrId : string + handle) : Js bool :=
  clientId <- match clientOrId with
              | inl s => ret (Some s)
              | inr client => getClientId client
              end ;;
  if negb (truthy clientId) then
    SocketLogger warn LeaveWithoutId ;;
    ret false
  else
    let clientId := stringOf clientId in
    removed <- clients_delete clientId ;;
    (if removed : bool then
       size <- gets (fun w => JsMap.size (clients w)) ;;
       SocketLogger info (ClientLeft clientId size)
     else SocketLogger warn (LeaveUnknown clientId)) ;;
    ret removed.

(** One turn of the [for ... of this.clients] loop of [forwardMessage],
    Room.js 141-160: the [try] block and its [catch].  The result is the
    pair of counters after the turn. *)
Definition forwardTurn {R : Runtime} (message : JsValue) (clientId : string)
  (clientInfo : ClientInfo) (successCount failCount : nat) : Js (nat * nat) :=
  tryCatch
    (let client := ws clientInfo in
     state <- getReadyState client ;;
     if Z.eqb state 1 then
       text <- stringify message ;;
       ws_send client text ;;
       ret (S successCount, failCount)
     else
       SocketLogger warn (BroadcastClosed clientId) ;;
       ret (successCount, S failCount))
    (fun err =>
       SocketLogger error (BroadcastSendFailed clientId (errorMessage err)) ;;
       ret (successCount, S failCount)).

(** The loop itself: the entries are visited in the order of the Map.
    No turn changes the Map, so iterating over the entries present at the
    start is what the live iterator does. *)
Fixpoint forwardLoop {R : Runtime} (message : JsValue)
  (entries : list (string * ClientInfo)) (successCount failCount : nat)
  : Js (nat * nat) :=
  match entries with
  | [] => ret (successCount, failCount)
  | (clientId, clientInfo) :: rest =>
      counts <- forwardTurn message clientId clientInfo
                  successCount failCount ;;
      forwardLoop message rest (fst counts) (snd counts)
  end.

(** [forwardMessage(message)], Room.js 132-164. *)
Definition forwardMessage {R : Runtime} (message : JsValue) : Js unit :=
  size <- gets (fun w => JsMap.size (clients w)) ;;
  SocketLogger info (BroadcastStart size) ;;
  entries <- gets clients ;;
  counts <- forwardLoop message entries 0 0 ;;
  SocketLogger info (BroadcastDone (fst counts) (snd counts)).

(** [sendToClient(clientId, message)], Room.js 173-196. *)
Definition sendToClient {R : Runtime} (clientId : string)
  (message : JsValue) : Js bool :=
  clientInfo <- gets (fun w => JsMap.get clientId (clients w)) ;;
  match clientInfo with
  | None =>
      SocketLogger warn (UnicastNotFound clientId) ;;
      ret false
  | Some clientInfo =>
      tryCatch
        (let client := ws clientInfo in
         state <- getReadyState client ;;
         if Z.eqb state 1 then
           text <- stringify message ;;
           ws_send client text ;;
           SocketLogger info (UnicastSent clientId) ;;
           ret true
         else
           SocketLogger warn (UnicastClosed clientId) ;;
           ret false)
        (fun err =>
           SocketLogger error
             (UnicastSendFailed clientId (errorMessage err)) ;;
           ret false)
  end.

(** [getClient(clientId)], Room.js 204-206; [None] is [null]. *)
Definition getClient (clientId : string) (w : World) : option ClientInfo :=
  JsMap.get clientId (clients w).

(** [getClientIds()], Room.js 213-215. *)
Definition getClientIds (w : World) : list string := JsMap.keys (clients w).

(** [getClientCount()], Room.js 222-224. *)
Definition getClientCount (w : World) : nat := JsMap.size (clients w).

(** [clear()], Room.js 233-237. *)
Definition clear : Js unit :=
  previousCount <- gets (fun w => JsMap.size (clients w)) ;;
  modify (withClients (fun _ => JsMap.empty)) ;;
  SocketLogger info (RoomCleared previousCount).

(** ** The coordinator: the handlers of app.js *)

(** The object literal of the acknowledgment, app.js 111-115.  The
    message text is the UTF-8 encoding of the source's literal. *)
Definition connectedMessage : string :=
  "서버에 성공적으로 연결되었습니다".

Definition connectedAck (timestamp : string) : JsValue :=
  JObj [("type", JStr "connected");
        ("message", JStr connectedMessage);
        ("timestamp", JStr timestamp)].

(** [cookies.split('=')], app.js 65: reading a property of [undefined]
    throws a [TypeError]. *)
Definition cookies_split (cookies : option string) : Js (list string) :=
  match cookies with
  | None =>
      throw (mkError "TypeError"
               "Cannot read properties of undefined (reading 'split')")
  | Some c => ret (String_split "=" c)
  end.

(** The ['connection'] handler, app.js 60-117, up to the registration of
    the per-connection handlers, which are [onMessage], [onClose] and
    [onError] below.  [cookies] is [req.headers.cookie]. *)
Definition onConnection {R : Runtime} (ws : handle)
  (cookies : option string) : Js unit :=
  SocketLogger info ConnectionOpened ;;
  console_log cookies ;;
  _ <- cookies_split cookies ;;
  _ <- join ws None ;;
  now <- newDate ;;
  text <- stringify (connectedAck (toISOString now)) ;;
  ws_send ws text.

(** The ['message'] handler, app.js 74-89; [messageStr] is
    [message.toString()]. *)
Definition onMessage {R : Runtime} (messageStr : string) : Js unit :=
  tryCatch
    (SocketLogger info (MessageReceived messageStr) ;;
     parsedMessage <- parse messageStr ;;
     forwardMessage parsedMessage)
    (fun err => SocketLogger error (MessageFailed (errorMessage err))).

(** The ['close'] handler, app.js 94-99. *)
Definition onClose (ws : handle) : Js unit :=
  SocketLogger info ConnectionClosed ;;
  _ <- leave (inr ws) ;;
  ret tt.

(** The ['error'] handler, app.js 105-107. *)
Definition onError (err : JsError) : Js unit :=
  SocketLogger error (TransportError (errorMessage err)).

(** ** Sequences of registry operations *)

Inductive RoomCall : Type :=
| CallJoin (client : handle) (clientId : option string)
| CallLeave (clientOrId : string + handle)
| CallForwardMessage (message : JsValue)
| CallSendToClient (clientId : string) (message : JsValue)
| CallClear.

(** The world after one call, whatever it returned. *)
Definition call {R : Runtime} (c : RoomCall) (w : World) : World :=
  match c with
  | CallJoin client clientId => snd (join client clientId w)
  | CallLeave clientOrId => snd (leave clientOrId w)
  | CallForwardMessage message => snd (forwardMessage message w)
  | CallSendToClient clientId message => snd (sendToClient clientId message w)
  | CallClear => snd (clear w)
  end.

Definition runCalls {R : Runtime} (cs : list RoomCall) (w : World) : World :=
  List.fold_left (fun w' c => call c w') cs w.

(** What every reachable registry satisfies: identities are pairwise
    distinct, each record carries the identity it is stored under, and
    no identity is the empty string. *)
Definition RoomInv (w : World) : Prop :=
  NoDup (getClientIds w) /\
  Forall (fun entry => id (snd entry) = fst entry /\ fst entry <> "")
    (clients w).

(** The identity [join] draws when none is supplied: eight bytes of the
    entropy source, in hexadecimal. *)
Definition generatedId (w : World) : string :=
  Buffer_toString_hex (List.map (entropy w) (List.seq (drawn w) 8)).

(** The identity [join] registers the client under. *)
Definition joinId (clientId : option string) (w : World) : string :=
  if truthy clientId then stringOf clientId else generatedId w.

(** The identity [leave] resolves its argument to. *)
Definition resolve (clientOrId : string + handle) (w : World)
  : option string :=
  match clientOrId with
  | inl s => Some s
  | inr client => clientId (heap w client)
  end.

(** Appending a payload to what a connection has been sent. *)
Definition written (text : string) (o : WebSocket) : WebSocket :=
  mkWebSocket (clientId o) (readyState o) (sendFails o) (sent o ++ [text])%list.

(** ** What a delivery attempt amounts to

    The outcome of one attempt as section 4.1 of the specification words
    it: a connection that is not open is skipped and counted as a failure;
    otherwise the payload is serialised and written, and an error of either
    step is a failure of that record only. *)
Inductive Delivery : Type :=
| Delivered (text : string)
| NotOpen
| Failed (e : JsError).

Definition delivery {R : Runtime} (w : World) (message : JsValue)
  (clientInfo : ClientInfo) : Delivery :=
  let client := heap w (ws clientInfo) in
  if Z.eqb (readyState client) 1 then
    match JSON_stringify message with
    | inl e => Failed e
    | inr text =>
        match sendFails client text with
        | Some e => Failed e
        | None => Delivered text
        end
    end
  else NotOpen.

Definition isDelivered (d : Delivery) : bool :=
  match d with Delivered _ => true | _ => false end.

(** What one attempt tells the logger. *)
Definition attemptLog {R : Runtime} (w : World) (message : JsValue)
  (entry : string * ClientInfo) : list (Level * LogMsg) :=
  match delivery w message (snd entry) with
  | Delivered _ => []
  | NotOpen => [(warn, BroadcastClosed (fst entry))]
  | Failed e => [(error, BroadcastSendFailed (fst entry) (errorMessage e))]
  end.

(** What one attempt writes to the WebSocket object [h]. *)
Definition attemptWrites {R : Runtime} (w : World) (message : JsValue)
  (h : handle) (entry : string * ClientInfo) : list string :=
  match delivery w message (snd entry) with
  | Delivered text => if Nat.eqb h (ws (snd entry)) then [text] else []
  | _ => []
  end.

Definition countDelivered {R : Runtime} (w : World) (message : JsValue)
  (entries : list (string * ClientInfo)) : nat :=
  List.length
    (List.filter (fun e => isDelivered (delivery w message (snd e))) entries).

Definition countFailed {R : Runtime} (w : World) (message : JsValue)
  (entries : list (string * ClientInfo)) : nat :=
  List.length
    (List.filter (fun e => negb (isDelivered (delivery w message (snd e))))
       entries).

(** Two worlds whose transports behave alike: every connection has the
    same [readyState] and the same reaction to a write. *)
Definition sameTransport (w1 w2 : World) : Prop :=
  forall h,
    readyState (heap w1 h) = readyState (heap w2 h) /\
    sendFails (heap w1 h) = sendFails (heap w2 h).

(** What a broadcast leaves alone: the registry, the environment, and of
    every WebSocket object all but its written payloads. *)
Definition onlySends (w w' : World) : Prop :=
  clients w' = clients w /\
  consoleOut w' = consoleOut w /\
  entropy w' = entropy w /\ drawn w' = drawn w /\
  clock w' = clock w /\ ticks w' = ticks w /\
  (forall h, clientId (heap w' h) = clientId (heap w h)) /\
  sameTransport w' w.

(** ** A reference runtime

    An implementation of the [Runtime] interface, to run the model on
    concrete inputs.  [refStringify] serialises the values of [JsValue]
    as [JSON.stringify] does; [refToISOString] is the algorithm of
    [Date.prototype.toISOString].  [refParse] is not [JSON.parse]: it
    reads a fragment of JSON only, the texts whose numbers are integer
    literals of at most 2^53 - 1 in magnitude (and not [-0]), whose
    strings use the one-letter escapes and whose object keys are not
    numerals, and it reports every other text, valid JSON or not, as a
    [SyntaxError] with a text of its own.  No theorem depends on it:
    each is stated for every [Runtime]. *)

Definition quoteChar : ascii := ascii_of_nat 34.

Definition hexOfNibble (n : nat) : ascii := hexDigit (N.of_nat n).

(** One character inside a JSON string literal. *)
Definition escapeChar (c : ascii) : string :=
  let n := nat_of_ascii c in
  if Nat.eqb n 34 then String "\" (String quoteChar EmptyString)
  else if Nat.eqb n 92 then "\\"
  else if Nat.eqb n 8 then "\b"
  else if Nat.eqb n 12 then "\f"
  else if Nat.eqb n 10 then "\n"
  else if Nat.eqb n 13 then "\r"
  else if Nat.eqb n 9 then "\t"
  else if Nat.ltb n 32 then
    "\u00" ++ String (hexOfNibble (n / 16))
                (String (hexOfNibble (n mod 16)) EmptyString)
  else String c EmptyString.

Fixpoint escapeString (s : string) : string :=
  match s with
  | EmptyString => EmptyString
  | String c rest => escapeChar c ++ escapeString rest
  end.

Definition quoteString (s : string) : string :=
  String quoteChar (escapeString s ++ String quoteChar EmptyString).

Definition decimalOfZ (n : Z) : string := NilZero.string_of_int (Z.to_int n).

Fixpoint refStringifyValue (v : JsValue) : string :=
  match v with
  | JNull => "null"
  | JBool true => "true"
  | JBool false => "false"
  | JNum n => decimalOfZ n
  | JStr s => quoteString s
  | JArr items =>
      "[" ++ String.concat "," (List.map refStringifyValue items) ++ "]"
  | JObj fields =>
      "{" ++ String.concat ","
               (List.map (fun kv =>
                  quoteString (fst kv) ++ ":" ++ refStringifyValue (snd kv))
                  fields) ++ "}"
  end.

Definition refStringify (v : JsValue) : JsError + string :=
  inr (refStringifyValue v).

(** Decimal digits of a natural number, padded with zeros to [width]. *)
Fixpoint padDigits (width : nat) (n : Z) : string :=
  match width with
  | O => EmptyString
  | S width' =>
      padDigits width' (n / 10) ++
      String (ascii_of_nat (48 + Z.to_nat (n mod 10))) EmptyString
  end.

(** [Date.prototype.toISOString] of a time value in milliseconds since
    the epoch: the proleptic Gregorian date of the day, then the time of
    day; years outside 0..9999 take a sign and six digits. *)
Definition refToISOString (t : Z) : string :=
  let days := (t / 86400000)%Z in
  let ms := (t mod 86400000)%Z in
  let z := (days + 719468)%Z in
  let era := (z / 146097)%Z in
  let doe := (z - era * 146097)%Z in
  let yoe := ((doe - doe / 1460 + doe / 36524 - doe / 146096) / 365)%Z in
  let doy := (doe - (365 * yoe + yoe / 4 - yoe / 100))%Z in
  let mp := ((5 * doy + 2) / 153)%Z in
  let d := (doy - (153 * mp + 2) / 5 + 1)%Z in
  let m := (if Z.ltb mp 10 then mp + 3 else mp - 9)%Z in
  let y := (yoe + era * 400 + (if Z.leb m 2 then 1 else 0))%Z in
  let year :=
    if andb (Z.leb 0 y) (Z.leb y 9999) then padDigits 4 y
    else (if Z.ltb y 0 then "-" else "+") ++ padDigits 6 (Z.abs y) in
  year ++ "-" ++ padDigits 2 m ++ "-" ++ padDigits 2 d ++ "T" ++
  padDigits 2 (ms / 3600000) ++ ":" ++
  padDigits 2 ((ms / 60000) mod 60) ++ ":" ++
  padDigits 2 ((ms / 1000) mod 60) ++ "." ++
  padDigits 3 (ms mod 1000) ++ "Z".

Definition isWhitespace (c : ascii) : bool :=
  let n := nat_of_ascii c in
  Nat.eqb n 32 || Nat.eqb n 9 || Nat.eqb n 10 || Nat.eqb n 13.

Fixpoint skipWhitespace (s : string) : string :=
  match s with
  | String c rest => if isWhitespace c then skipWhitespace rest else s
  | EmptyString => s
  end.

Definition isDigit (c : ascii) : bool :=
  let n := nat_of_ascii c in Nat.leb 48 n && Nat.leb n 57.

(** The digits at the head of [s], as a number, and what follows. *)
Fixpoint readDigits (acc : Z) (s : string) : Z * string :=
  match s with
  | String c rest =>
      if isDigit c then
        readDigits (acc * 10 + Z.of_nat (nat_of_ascii c - 48)) rest
      else (acc, s)
  | EmptyString => (acc, s)
  end.

(** A JSON number without fraction or exponent: [0], or a non-zero
    digit and more digits. *)
Definition readNatural (s : string) : option (Z * string) :=
  match s with
  | String c rest =>
      if Ascii.eqb c "0" then
        match rest with
        | String c' _ => if isDigit c' then None else Some (0%Z, rest)
        | EmptyString => Some (0%Z, rest)
        end
      else if isDigit c then Some (readDigits 0 s)
      else None
  | EmptyString => None
  end.

Definition endsNumber (s : string) : bool :=
  match s with
  | String c _ =>
      negb (Ascii.eqb c "." || Ascii.eqb c "e" || Ascii.eqb c "E")
  | EmptyString => true
  end.

(** The integers that a JavaScript number holds exactly. *)
Definition isSafeInteger (n : Z) : bool := Z.leb n 9007199254740991.

(** A key made of digits: JavaScript orders such properties by value,
    not by insertion. *)
Definition isNumeral (key : string) : bool :=
  match key with
  | EmptyString => false
  | String _ _ => allChars isDigit key
  end.

(** The string literal whose opening quote was just read. *)
Fixpoint readString (acc : string) (s : string) : option (string * string) :=
  match s with
  | EmptyString => None
  | String c rest =>
      if Ascii.eqb c quoteChar then Some (acc, rest)
      else if Ascii.eqb c "\" then
        match rest with
        | String e rest' =>
            let continue x := readString (acc ++ String x EmptyString) rest' in
            if Ascii.eqb e quoteChar then continue quoteChar
            else if Ascii.eqb e "\" then continue "\"%char
            else if Ascii.eqb e "/" then continue "/"%char
            else if Ascii.eqb e "b" then continue (ascii_of_nat 8)
            else if Ascii.eqb e "f" then continue (ascii_of_nat 12)
            else if Ascii.eqb e "n" then continue (ascii_of_nat 10)
            else if Ascii.eqb e "r" then continue (ascii_of_nat 13)
            else if Ascii.eqb e "t" then continue (ascii_of_nat 9)
            else None
        | EmptyString => None
        end
      else if Nat.ltb (nat_of_ascii c) 32 then None
      else readString (acc ++ String c EmptyString) rest
  end.

(** [s] without the prefix [p], when it starts with it. *)
Fixpoint afterPrefix (p s : string) : option string :=
  match p, s with
  | EmptyString, _ => Some s
  | String a p', String b s' =>
      if Ascii.eqb a b then afterPrefix p' s' else None
  | String _ _, EmptyString => None
  end.

Fixpoint readValue (fuel : nat) (s : string) : option (JsValue * string) :=
  match fuel with
  | O => None
  | S fuel' =>
      match skipWhitespace s with
      | EmptyString => None
      | String c rest as s' =>
          if Ascii.eqb c "n" then
            option_map (pair JNull) (afterPrefix "null" s')
          else if Ascii.eqb c "t" then
            option_map (pair (JBool true)) (afterPrefix "true" s')
          else if Ascii.eqb c "f" then
            option_map (pair (JBool false)) (afterPrefix "false" s')
          else if Ascii.eqb c quoteChar then
            match readString EmptyString rest with
            | Some (str, rest') => Some (JStr str, rest')
            | None => None
            end
          else if Ascii.eqb c "[" then
            match skipWhitespace rest with
            | String c' rest' =>
                if Ascii.eqb c' "]" then Some (JArr [], rest')
                else
                  match readElements fuel' rest with
                  | Some (items, r) => Some (JArr items, r)
                  | None => None
                  end
            | EmptyString => None
            end
          else if Ascii.eqb c "{" then
            match skipWhitespace rest with
            | String c' rest' =>
                if Ascii.eqb c' "}" then Some (JObj [], rest')
                else
                  match readMembers fuel' [] rest with
                  | Some (fields, r) => Some (JObj fields, r)
                  | None => None
                  end
            | EmptyString => None
            end
          else if Ascii.eqb c "-" then
            match readNatural rest with
            | Some (n, r) =>
                if endsNumber r && isSafeInteger n && negb (Z.eqb n 0)
                then Some (JNum (- n), r)
                else None
            | None => None
            end
          else
            match readNatural s' with
            | Some (n, r) =>
                if endsNumber r && isSafeInteger n then Some (JNum n, r)
                else None
            | None => None
            end
      end
  end
with readElements (fuel : nat) (s : string)
  : option (list JsValue * string) :=
  match fuel with
  | O => None
  | S fuel' =>
      match readValue fuel' s with
      | Some (v, r) =>
          match skipWhitespace r with
          | String c r' =>
              if Ascii.eqb c "," then
                match readElements fuel' r' with
                | Some (vs, r'') => Some (v :: vs, r'')
                | None => None
                end
              else if Ascii.eqb c "]" then Some ([v], r')
              else None
          | EmptyString => None
          end
      | None => None
      end
  end
with readMembers (fuel : nat) (acc : list (string * JsValue)) (s : string)
  : option (list (string * JsValue) * string) :=
  match fuel with
  | O => None
  | S fuel' =>
      match skipWhitespace s with
      | String c rest =>
          if Ascii.eqb c quoteChar then
            match readString EmptyString rest with
            | Some (key, r) =>
                match skipWhitespace r with
                | String c' r' =>
                    if isNumeral key then None
                    else if Ascii.eqb c' ":" then
                      match readValue fuel' r' with
                      | Some (v, r'') =>
                          let acc' := JsMap.set key v acc in
                          match skipWhitespace r'' with
                          | String c'' r3 =>
                              if Ascii.eqb c'' "," then
                                readMembers fuel' acc' r3
                              else if Ascii.eqb c'' "}" then Some (acc', r3)
                              else None
                          | EmptyString => None
                          end
                      | None => None
                      end
                    else None
                | EmptyString => None
                end
            | None => None
            end
          else None
      | EmptyString => None
      end
  end.

Definition syntaxError : JsError :=
  mkError "SyntaxError" "Unexpected token in JSON".

Definition refParse (text : string) : JsError + JsValue :=
  match readValue (2 * String.length text + 2) text with
  | Some (v, rest) =>
      match skipWhitespace rest with
      | EmptyString => inr v
      | String _ _ => inl syntaxError
      end
  | None => inl syntaxError
  end.

#[export] Instance refRuntime : Runtime :=
  mkRuntime refStringify refParse refToISOString.

(** A world to start from: an empty registry, connections that are open
    and accept every write, an entropy source that counts upwards, and a
    clock that starts at the epoch and advances by one second per
    reading. *)
Definition freshWorld : World :=
  mkWorld []
    (fun _ => mkWebSocket None 1 (fun _ => None) [])
    [] []
    (fun n => match Byte.of_N (N.of_nat (n mod 256)) with
              | Some b => b
              | None => x00
              end)
    0
    (fun n => (1000 * Z.of_nat n)%Z)
    0.

(** ** Observing one call *)

(** What a call added to the log, and what it wrote to a connection. *)
Definition newLog (w w' : World) : list (Level * LogMsg) :=
  List.skipn (List.length (socketLog w)) (socketLog w').

Definition newWrites (w w' : World) (h : handle) : list string :=
  List.skipn (List.length (sent (heap w h))) (sent (heap w' h)).

(** The attempt on a record is visible in the world [w'] that a
    broadcast started in [w] leaves: its payload was written to its
    connection, or its failure was reported. *)
Definition attempted {R : Runtime} (w w' : World) (message : JsValue)
  (entry : string * ClientInfo) : Prop :=
  match delivery w message (snd entry) with
  | Delivered text => In text (newWrites w w' (ws (snd entry)))
  | NotOpen => In (warn, BroadcastClosed (fst entry)) (newLog w w')
  | Failed e =>
      In (error, BroadcastSendFailed (fst entry) (errorMessage e))
        (newLog w w')
  end.

(** ** Worlds to run the model in *)

(** [s.includes(search)]. *)
Definition String_includes (s search : string) : bool :=
  match String.index 0 search s with
  | Some _ => true
  | None => false
  end.

(** A transport in which connection 1 is closed ([readyState] 3) and
    connection 2 throws on every write; the others are open and accept
    every write. *)
Definition faultyHeap : handle -> WebSocket :=
  fun h =>
    match h with
    | 1 => mkWebSocket None 3 (fun _ => None) []
    | 2 =>
        mkWebSocket None 1
          (fun _ => Some (mkError "Error" "socket hang up")) []
    | _ => mkWebSocket None 1 (fun _ => None) []
    end.

Definition faultyWorld : World :=
  mkWorld [] faultyHeap [] [] (entropy freshWorld) 0 (clock freshWorld) 0.

(** A new room that clients A, B, C and D joined, on connections 0 to
    3. *)
Definition fourClients : World :=
  runCalls [CallJoin 0 (Some "A"); CallJoin 1 (Some "B");
            CallJoin 2 (Some "C"); CallJoin 3 (Some "D")]
    (snd (Room_new faultyWorld)).

Definition chatMessage : JsValue :=
  JObj [("type", JStr "chat"); ("text", JStr "hi")].

(** ** Compositions of the operations *)

(** A series of [join(client, clientId)] calls, one per pair. *)
Definition joinAll (pairs : list (handle * string)) (w : World) : World :=
  List.fold_left (fun w' p => snd (join (fst p) (Some (snd p)) w')) pairs w.

(** Under how many identities the connection [h] is registered. *)
Definition registrations (h : handle) (w : World) : nat :=
  List.length
    (List.filter (fun entry => Nat.eqb h (ws (snd entry))) (clients w)).

(** The world in which the ['connection'] handler, given a cookie
    header, has logged, split the cookie and called [room.join(ws)]. *)
Definition accepted (ws : handle) (cookie : string) (w : World) : World :=
  snd (join ws None
         (withConsoleOut (fun l => l ++ [Some cookie])%list
            (withSocketLog
               (fun l => l ++ [(info, ConnectionOpened)])%list w))).

(** The random bytes the next [join] without an identity will draw. *)
Definition nextBytes (w : World) : list byte :=
  List.map (entropy w) (List.seq (drawn w) 8).

(** * Properties *)

(** ** The Map *)

Module JsMapFacts.

Section Facts.

Context {V : Type}.

Implicit Types (m : JsMap.t V) (k : string) (v : V).

Lemma get_set_same k v m : JsMap.get k (JsMap.set k v m) = Some v.
Proof.
  induction m as [|[k' v'] m IH]; simpl.
  - now rewrite String.eqb_refl.
  - destruct (String.eqb k' k) eqn:E; simpl.
    + now rewrite String.eqb_refl.
    + now rewrite E.
Qed.

Lemma get_set_other k k' v m :
  k' <> k -> JsMap.get k' (JsMap.set k v m) = JsMap.get k' m.
Proof.
  intros Hne. induction m as [|[k0 v0] m IH]; simpl.
  - destruct (String.eqb_spec k k'); congruence.
  - destruct (String.eqb_spec k0 k) as [->|Hk]; simpl.
    + destruct (String.eqb_spec k k'); congruence.
    + destruct (String.eqb_spec k0 k'); congruence.
Qed.

Lemma has_true_iff k m : JsMap.has k m = true <-> In k (JsMap.keys m).
Proof.
  unfold JsMap.has. induction m as [|[k' v'] m IH]; simpl.
  - split; [discriminate | tauto].
  - destruct (String.eqb_spec k' k) as [->|Hk].
    + split; auto.
    + rewrite IH. split; [auto | intros [H|H]; [congruence | exact H]].
Qed.

Lemma has_false_iff k m : JsMap.has k m = false <-> ~ In k (JsMap.keys m).
Proof.
  rewrite <- has_true_iff. destruct (JsMap.has k m); split; congruence.
Qed.

Lemma get_none_iff k m : JsMap.get k m = None <-> ~ In k (JsMap.keys m).
Proof.
  rewrite <- has_false_iff. unfold JsMap.has.
  destruct (JsMap.get k m); split; congruence.
Qed.

Lemma keys_set k v m :
  JsMap.keys (JsMap.set k v m) =
  if JsMap.has k m then JsMap.keys m else (JsMap.keys m ++ [k])%list.
Proof.
  unfold JsMap.has. induction m as [|[k' v'] m IH]; simpl.
  - reflexivity.
  - destruct (String.eqb_spec k' k) as [->|Hk]; simpl.
    + reflexivity.
    + rewrite IH. now destruct (JsMap.get k m).
Qed.

Lemma size_set k v m :
  JsMap.size (JsMap.set k v m) =
  if JsMap.has k m then JsMap.size m else S (JsMap.size m).
Proof.
  unfold JsMap.size. rewrite <- !(length_map fst).
  change (List.map fst (JsMap.set k v m)) with (JsMap.keys (JsMap.set k v m)).
  change (List.map fst m) with (JsMap.keys m).
  rewrite keys_set. destruct (JsMap.has k m).
  - reflexivity.
  - rewrite length_app. simpl. lia.
Qed.

Lemma NoDup_keys_set k v m :
  NoDup (JsMap.keys m) -> NoDup (JsMap.keys (JsMap.set k v m)).
Proof.
  intros Hnd. rewrite keys_set. destruct (JsMap.has k m) eqn:E.
  - exact Hnd.
  - apply has_false_iff in E.
    apply NoDup_app; [exact Hnd | repeat constructor; simpl; tauto |].
    intros x Hx [<-|[]]. contradiction.
Qed.

Lemma Forall_set (P : string * V -> Prop) k v m :
  P (k, v) -> Forall P m -> Forall P (JsMap.set k v m).
Proof.
  intros Hkv Hm. induction Hm as [|[k' v'] m Hx Hm IH]; simpl.
  - repeat constructor. exact Hkv.
  - destruct (String.eqb k' k); constructor; assumption.
Qed.

Lemma keys_remove_incl k m x :
  In x (JsMap.keys (JsMap.remove k m)) -> In x (JsMap.keys m).
Proof.
  induction m as [|[k' v'] m IH]; simpl.
  - tauto.
  - destruct (String.eqb k' k); simpl; tauto.
Qed.

Lemma NoDup_keys_remove k m :
  NoDup (JsMap.keys m) -> NoDup (JsMap.keys (JsMap.remove k m)).
Proof.
  induction m as [|[k' v'] m IH]; simpl; intros Hnd.
  - constructor.
  - inversion Hnd as [|? ? Hnotin Hnd']; subst.
    destruct (String.eqb k' k); simpl.
    + exact Hnd'.
    + constructor; [|auto]. intros Hin. apply Hnotin.
      eapply keys_remove_incl; eassumption.
Qed.

Lemma Forall_remove (P : string * V -> Prop) k m :
  Forall P m -> Forall P (JsMap.remove k m).
Proof.
  intros Hm. induction Hm as [|[k' v'] m Hx Hm IH]; simpl.
  - constructor.
  - destruct (String.eqb k' k); [assumption | constructor; assumption].
Qed.

Lemma get_remove_same k m :
  NoDup (JsMap.keys m) -> JsMap.get k (JsMap.remove k m) = None.
Proof.
  induction m as [|[k' v'] m IH]; simpl; intros Hnd.
  - reflexivity.
  - inversion Hnd as [|? ? Hnotin Hnd']; subst.
    destruct (String.eqb_spec k' k) as [->|Hk]; simpl.
    + now apply get_none_iff.
    + destruct (String.eqb_spec k' k); [contradiction | auto].
Qed.

Lemma get_remove_other k k' m :
  k' <> k -> JsMap.get k' (JsMap.remove k m) = JsMap.get k' m.
Proof.
  intros Hne. induction m as [|[k0 v0] m IH]; simpl.
  - reflexivity.
  - destruct (String.eqb_spec k0 k) as [->|Hk]; simpl.
    + destruct (String.eqb_spec k k'); congruence.
    + destruct (String.eqb_spec k0 k'); congruence.
Qed.

Lemma remove_absent k m : JsMap.has k m = false -> JsMap.remove k m = m.
Proof.
  unfold JsMap.has. induction m as [|[k' v'] m IH]; simpl.
  - reflexivity.
  - destruct (String.eqb_spec k' k); [discriminate|].
    intros H. now rewrite IH.
Qed.

Lemma size_remove_present k m :
  JsMap.has k m = true -> S (JsMap.size (JsMap.remove k m)) = JsMap.size m.
Proof.
  unfold JsMap.has, JsMap.size. induction m as [|[k' v'] m IH]; simpl.
  - discriminate.
  - destruct (String.eqb_spec k' k); [reflexivity|].
    intros H. simpl. now rewrite IH.
Qed.

Lemma get_in k v m : JsMap.get k m = Some v -> In (k, v) m.
Proof.
  induction m as [|[k' v'] m IH]; simpl.
  - discriminate.
  - destruct (String.eqb_spec k' k) as [->|Hk].
    + intros [= ->]. now left.
    + auto.
Qed.

End Facts.

End JsMapFacts.

(** ** Hexadecimal identities *)

Lemma hex_length buf :
  String.length (Buffer_toString_hex buf) = 2 * List.length buf.
Proof.
  induction buf as [|b buf IH]; simpl; [reflexivity | rewrite IH; lia].
Qed.

Lemma hex_digits buf : allChars isHexDigit (Buffer_toString_hex buf) = true.
Proof.
  induction buf as [|b buf IH]; simpl; [reflexivity|].
  rewrite IH. now destruct b.
Qed.

Lemma hex_byte_roundtrip (b : byte) :
  match hexValue (hexDigit (Byte.to_N b / 16)),
        hexValue (hexDigit (Byte.to_N b mod 16)) with
  | Some h, Some l => Byte.of_N (h * 16 + l)
  | _, _ => None
  end = Some b.
Proof. now destruct b. Qed.

Lemma hex_roundtrip buf : Buffer_from_hex (Buffer_toString_hex buf) = Some buf.
Proof.
  induction buf as [|b buf IH]; [reflexivity|].
  cbn [Buffer_toString_hex Buffer_from_hex]. rewrite IH.
  pose proof (hex_byte_roundtrip b) as Hb.
  destruct (hexValue (hexDigit (Byte.to_N b / 16))) as [h|]; [|discriminate].
  destruct (hexValue (hexDigit (Byte.to_N b mod 16))) as [l|]; [|discriminate].
  now rewrite Hb.
Qed.

Lemma generatedId_length w : String.length (generatedId w) = 16.
Proof.
  unfold generatedId. now rewrite hex_length, length_map, length_seq.
Qed.

Lemma generatedId_nonempty w : generatedId w <> "".
Proof.
  intros H. pose proof (generatedId_length w) as L. rewrite H in L.
  discriminate.
Qed.

Lemma truthy_nonempty s : truthy (Some s) = true <-> s <> "".
Proof.
  unfold truthy. destruct (String.eqb_spec s ""); simpl; split;
    congruence.
Qed.

(** ** What each operation of the registry computes *)

Lemma joinId_nonempty clientId w : joinId clientId w <> "".
Proof.
  unfold joinId. destruct clientId as [s|]; simpl.
  - destruct (String.eqb_spec s ""); simpl.
    + apply generatedId_nonempty.
    + assumption.
  - apply generatedId_nonempty.
Qed.

Lemma join_eq client clientId w :
  join client clientId w =
  let i := joinId clientId w in
  let m := JsMap.set i (mkClientInfo client i (clock w (ticks w)))
             (clients w) in
  (Returns i,
   mkWorld m
     (updateObject client (fun o =>
        mkWebSocket (Some i) (readyState o) (sendFails o) (sent o)) (heap w))
     (socketLog w ++ [(info, ClientJoined i (JsMap.size m))])%list
     (consoleOut w) (entropy w)
     (if truthy clientId then drawn w else drawn w + 8)
     (clock w) (S (ticks w))).
Proof.
  unfold join, joinId, orElse, generatedId.
  destruct (truthy clientId); reflexivity.
Qed.

Lemma leave_eq clientOrId w :
  leave clientOrId w =
  let r := resolve clientOrId w in
  if truthy r then
    let i := stringOf r in
    let m := JsMap.remove i (clients w) in
    (Returns (JsMap.has i (clients w)),
     mkWorld m (heap w)
       (socketLog w ++
        [if JsMap.has i (clients w) then (info, ClientLeft i (JsMap.size m))
         else (warn, LeaveUnknown i)])%list
       (consoleOut w) (entropy w) (drawn w) (clock w) (ticks w))
  else
    (Returns false, withSocketLog (fun l => l ++ [(warn, LeaveWithoutId)])%list w).
Proof.
  unfold leave, resolve.
  destruct clientOrId as [s|client]; unfold bind, ret, getClientId, gets;
    cbn beta iota.
  - destruct (truthy (Some s)); cbn; [|reflexivity].
    unfold clients_delete, JsMap.delete.
    destruct (JsMap.has s (clients w)); reflexivity.
  - destruct (truthy (clientId (heap w client))); cbn; [|reflexivity].
    unfold clients_delete, JsMap.delete.
    destruct (JsMap.has _ (clients w)); reflexivity.
Qed.

Lemma clear_eq w :
  clear w =
  (Returns tt,
   mkWorld [] (heap w)
     (socketLog w ++ [(info, RoomCleared (JsMap.size (clients w)))])%list
     (consoleOut w) (entropy w) (drawn w) (clock w) (ticks w)).
Proof. reflexivity. Qed.

Lemma Room_new_eq w :
  Room_new w =
  (Returns tt,
   mkWorld [] (heap w) (socketLog w ++ [(info, RoomCreated)])%list
     (consoleOut w) (entropy w) (drawn w) (clock w) (ticks w)).
Proof. reflexivity. Qed.

Lemma forwardTurn_eq {R : Runtime} message k ci s f w :
  forwardTurn message k ci s f w =
  match delivery w message ci with
  | Delivered text =>
      (Returns (S s, f), withHeap (updateObject (ws ci) (written text)) w)
  | NotOpen =>
      (Returns (s, S f),
       withSocketLog (fun l => l ++ [(warn, BroadcastClosed k)])%list w)
  | Failed e =>
      (Returns (s, S f),
       withSocketLog
         (fun l => l ++ [(error, BroadcastSendFailed k (errorMessage e))])%list
         w)
  end.
Proof.
  unfold forwardTurn, delivery, tryCatch, bind, getReadyState, gets,
    stringify, ws_send.
  cbn beta iota.
  destruct (Z.eqb (readyState (heap w (ws ci))) 1); [|reflexivity].
  destruct (JSON_stringify message) as [e|text]; [reflexivity|].
  unfold ret. cbn beta iota.
  destruct (sendFails (heap w (ws ci)) text); reflexivity.
Qed.

Lemma sendToClient_eq {R : Runtime} k message w :
  sendToClient k message w =
  match JsMap.get k (clients w) with
  | None =>
      (Returns false,
       withSocketLog (fun l => l ++ [(warn, UnicastNotFound k)])%list w)
  | Some ci =>
      match delivery w message ci with
      | Delivered text =>
          (Returns true,
           withSocketLog (fun l => l ++ [(info, UnicastSent k)])%list
             (withHeap (updateObject (ws ci) (written text)) w))
      | NotOpen =>
          (Returns false,
           withSocketLog (fun l => l ++ [(warn, UnicastClosed k)])%list w)
      | Failed e =>
          (Returns false,
           withSocketLog
             (fun l => l ++ [(error, UnicastSendFailed k (errorMessage e))])%list
             w)
      end
  end.
Proof.
  unfold sendToClient, bind, gets. cbn beta iota.
  destruct (JsMap.get k (clients w)) as [ci|]; [|reflexivity].
  unfold delivery, tryCatch, bind, getReadyState, gets, stringify, ws_send.
  cbn beta iota.
  destruct (Z.eqb (readyState (heap w (ws ci))) 1); [|reflexivity].
  destruct (JSON_stringify message) as [e|text]; [reflexivity|].
  unfold ret. cbn beta iota.
  destruct (sendFails (heap w (ws ci)) text); reflexivity.
Qed.

(** ** The broadcast loop *)

Lemma readyState_written h c text hp :
  readyState (updateObject c (written text) hp h) = readyState (hp h).
Proof. unfold updateObject. now destruct (Nat.eqb h c). Qed.

Lemma sendFails_written h c text hp :
  sendFails (updateObject c (written text) hp h) = sendFails (hp h).
Proof. unfold updateObject. now destruct (Nat.eqb h c). Qed.

Lemma clientId_written h c text hp :
  clientId (updateObject c (written text) hp h) = clientId (hp h).
Proof. unfold updateObject. now destruct (Nat.eqb h c). Qed.

Lemma sent_written h c text hp :
  sent (updateObject c (written text) hp h) =
  (sent (hp h) ++ if Nat.eqb h c then [text] else [])%list.
Proof.
  unfold updateObject. destruct (Nat.eqb h c); simpl;
    [reflexivity | now rewrite app_nil_r].
Qed.

Lemma onlySends_refl w : onlySends w w.
Proof. unfold onlySends, sameTransport. repeat split. Qed.

Lemma onlySends_trans w1 w2 w3 :
  onlySends w1 w2 -> onlySends w2 w3 -> onlySends w1 w3.
Proof.
  unfold onlySends, sameTransport.
  intros (A1 & A2 & A3 & A4 & A5 & A6 & A7 & A8)
         (B1 & B2 & B3 & B4 & B5 & B6 & B7 & B8).
  split; [congruence|]. split; [congruence|]. split; [congruence|].
  split; [congruence|]. split; [congruence|]. split; [congruence|].
  split.
  - intros h. now rewrite B7.
  - intros h. destruct (B8 h) as [-> ->]. apply A8.
Qed.

Lemma onlySends_written w c text :
  onlySends w (withHeap (updateObject c (written text)) w).
Proof.
  unfold onlySends, sameTransport. simpl.
  do 6 (split; [reflexivity|]). split.
  - intros h. apply clientId_written.
  - intros h. split; [apply readyState_written | apply sendFails_written].
Qed.

Lemma onlySends_logged w entry :
  onlySends w (withSocketLog (fun l => l ++ [entry])%list w).
Proof. unfold onlySends, sameTransport. simpl. repeat split. Qed.

Lemma delivery_sameTransport {R : Runtime} w1 w2 message ci :
  sameTransport w1 w2 -> delivery w1 message ci = delivery w2 message ci.
Proof.
  intros H. unfold delivery. cbv zeta.
  now destruct (H (ws ci)) as [-> ->].
Qed.

Lemma attemptLog_sameTransport {R : Runtime} w1 w2 message entries :
  sameTransport w1 w2 ->
  flat_map (attemptLog w1 message) entries =
  flat_map (attemptLog w2 message) entries.
Proof.
  intros H. apply flat_map_ext. intros e. unfold attemptLog.
  now rewrite (delivery_sameTransport w1 w2).
Qed.

Lemma attemptWrites_sameTransport {R : Runtime} w1 w2 message h entries :
  sameTransport w1 w2 ->
  flat_map (attemptWrites w1 message h) entries =
  flat_map (attemptWrites w2 message h) entries.
Proof.
  intros H. apply flat_map_ext. intros e. unfold attemptWrites.
  now rewrite (delivery_sameTransport w1 w2).
Qed.

Lemma countDelivered_sameTransport {R : Runtime} w1 w2 message entries :
  sameTransport w1 w2 ->
  countDelivered w1 message entries = countDelivered w2 message entries.
Proof.
  intros H. unfold countDelivered. f_equal. apply filter_ext.
  intros e. now rewrite (delivery_sameTransport w1 w2).
Qed.

Lemma countFailed_sameTransport {R : Runtime} w1 w2 message entries :
  sameTransport w1 w2 ->
  countFailed w1 message entries = countFailed w2 message entries.
Proof.
  intros H. unfold countFailed. f_equal. apply filter_ext.
  intros e. now rewrite (delivery_sameTransport w1 w2).
Qed.

Lemma count_total {R : Runtime} w message entries :
  countDelivered w message entries + countFailed w message entries =
  List.length entries.
Proof.
  unfold countDelivered, countFailed.
  induction entries as [|e entries IH]; simpl; [reflexivity|].
  destruct (isDelivered (delivery w message (snd e))); simpl; lia.
Qed.

(** One turn returns, counts its record once, and does to the world
    what its own attempt amounts to. *)
Lemma forwardTurn_spec {R : Runtime} message k ci s f w :
  exists w1,
    forwardTurn message k ci s f w =
      (Returns (s + countDelivered w message [(k, ci)],
                f + countFailed w message [(k, ci)]), w1) /\
    onlySends w w1 /\
    socketLog w1 = (socketLog w ++ attemptLog w message (k, ci))%list /\
    forall h,
      sent (heap w1 h) =
      (sent (heap w h) ++ attemptWrites w message h (k, ci))%list.
Proof.
  rewrite forwardTurn_eq.
  unfold countDelivered, countFailed, attemptLog, attemptWrites.
  cbn [filter fst snd].
  destruct (delivery w message ci) as [text| |e];
    cbn [isDelivered negb List.length];
    eexists; (split; [rewrite ?Nat.add_0_r, ?Nat.add_1_r; reflexivity|]).
  - split; [apply onlySends_written|]. split.
    + cbn. now rewrite app_nil_r.
    + intros h. cbn [heap withHeap]. apply sent_written.
  - split; [apply onlySends_logged|]. split.
    + reflexivity.
    + intros h. cbn. now rewrite app_nil_r.
  - split; [apply onlySends_logged|]. split.
    + reflexivity.
    + intros h. cbn. now rewrite app_nil_r.
Qed.

Lemma countDelivered_cons {R : Runtime} w message e entries :
  countDelivered w message (e :: entries) =
  countDelivered w message [e] + countDelivered w message entries.
Proof.
  unfold countDelivered. cbn [filter].
  now destruct (isDelivered (delivery w message (snd e))).
Qed.

Lemma countFailed_cons {R : Runtime} w message e entries :
  countFailed w message (e :: entries) =
  countFailed w message [e] + countFailed w message entries.
Proof.
  unfold countFailed. cbn [filter].
  now destruct (isDelivered (delivery w message (snd e))).
Qed.

(** The loop visits every entry once, in order: its effect is the
    effects of the attempts, one after the other. *)
Lemma forwardLoop_spec {R : Runtime} message entries :
  forall w s f,
  exists w',
    forwardLoop message entries s f w =
      (Returns (s + countDelivered w message entries,
                f + countFailed w message entries), w') /\
    onlySends w w' /\
    socketLog w' =
      (socketLog w ++ flat_map (attemptLog w message) entries)%list /\
    forall h,
      sent (heap w' h) =
      (sent (heap w h) ++ flat_map (attemptWrites w message h) entries)%list.
Proof.
  induction entries as [|[k ci] rest IH]; intros w s f.
  - exists w. unfold countDelivered, countFailed. cbn.
    rewrite !Nat.add_0_r, app_nil_r.
    split; [reflexivity|]. split; [apply onlySends_refl|].
    split; [reflexivity|]. intros h. now rewrite app_nil_r.
  - destruct (forwardTurn_spec message k ci s f w) as (w1 & E1 & F1 & L1 & W1).
    destruct (IH w1 (s + countDelivered w message [(k, ci)])
                    (f + countFailed w message [(k, ci)]))
      as (w' & E & F & L & W).
    assert (T : sameTransport w1 w) by apply F1.
    exists w'. cbn [forwardLoop]. unfold bind. rewrite E1.
    cbn [fst snd]. rewrite E.
    rewrite (countDelivered_sameTransport w1 w),
      (countFailed_sameTransport w1 w) by exact T.
    rewrite (countDelivered_cons w message (k, ci) rest),
      (countFailed_cons w message (k, ci) rest), !Nat.add_assoc.
    split; [reflexivity|].
    split; [eapply onlySends_trans; eassumption|]. split.
    + rewrite L, L1, (attemptLog_sameTransport w1 w) by exact T.
      cbn [flat_map]. now rewrite app_assoc.
    + intros h.
      rewrite W, W1, (attemptWrites_sameTransport w1 w) by exact T.
      cbn [flat_map]. now rewrite app_assoc.
Qed.

Lemma forwardMessage_spec {R : Runtime} message w :
  exists w',
    forwardMessage message w = (Returns tt, w') /\
    onlySends w w' /\
    socketLog w' =
      (socketLog w ++
       (info, BroadcastStart (getClientCount w)) ::
       flat_map (attemptLog w message) (clients w) ++
       [(info, BroadcastDone (countDelivered w message (clients w))
                 (countFailed w message (clients w)))])%list /\
    forall h,
      sent (heap w' h) =
      (sent (heap w h) ++
       flat_map (attemptWrites w message h) (clients w))%list.
Proof.
  pose proof (onlySends_logged w (info, BroadcastStart (getClientCount w)))
    as F0.
  set (w0 := withSocketLog _ w) in F0.
  destruct (forwardLoop_spec message (clients w) w0 0 0)
    as (w1 & E & F & L & W).
  assert (T : sameTransport w0 w) by apply F0.
  exists (withSocketLog (fun l =>
            l ++ [(info, BroadcastDone (countDelivered w message (clients w))
                           (countFailed w message (clients w)))])%list w1).
  split.
  - unfold forwardMessage, bind, gets, SocketLogger, modify.
    cbn beta iota. fold (getClientCount w). fold w0.
    change (clients w0) with (clients w). rewrite E.
    cbn [fst snd Nat.add].
    now rewrite (countDelivered_sameTransport w0 w),
      (countFailed_sameTransport w0 w) by exact T.
  - split; [|split].
    + eapply onlySends_trans; [exact F0|].
      eapply onlySends_trans; [exact F|]. apply onlySends_logged.
    + cbn [socketLog withSocketLog]. rewrite L.
      rewrite (attemptLog_sameTransport w0 w) by exact T.
      unfold w0. cbn [socketLog withSocketLog].
      rewrite <- !app_assoc. reflexivity.
    + intros h. cbn [heap withSocketLog]. rewrite W.
      now rewrite (attemptWrites_sameTransport w0 w) by exact T.
Qed.

Lemma skipn_app_length {A} (l x : list A) :
  List.skipn (List.length l) (l ++ x)%list = x.
Proof. induction l as [|a l IH]; simpl; auto. Qed.

Lemma attempted_after_broadcast {R : Runtime} message w w' tail :
  socketLog w' =
    (socketLog w ++
     (info, BroadcastStart (getClientCount w)) ::
     flat_map (attemptLog w message) (clients w) ++ tail)%list ->
  (forall h,
     sent (heap w' h) =
     (sent (heap w h) ++
      flat_map (attemptWrites w message h) (clients w))%list) ->
  forall entry, In entry (clients w) -> attempted w w' message entry.
Proof.
  intros L W entry Hin. unfold attempted, newLog, newWrites.
  rewrite L, W, !skipn_app_length.
  destruct (delivery w message (snd entry)) as [text| |e] eqn:D.
  - apply in_flat_map. exists entry. split; [exact Hin|].
    unfold attemptWrites. rewrite D, Nat.eqb_refl. now left.
  - right. apply in_or_app. left. apply in_flat_map.
    exists entry. split; [exact Hin|].
    unfold attemptLog. rewrite D. now left.
  - right. apply in_or_app. left. apply in_flat_map.
    exists entry. split; [exact Hin|].
    unfold attemptLog. rewrite D. now left.
Qed.

(** ** Broadcast: every record is attempted, failures stay local *)

(** C1.  Whatever the registry holds and whatever the payload is,
    [forwardMessage] returns normally; it makes one delivery attempt per
    registered record, in the order of the registry: the log and the
    writes it adds are those of the attempts, one after the other, and
    the two counters it reports add up to [getClientCount()] at the time
    of the call.  When the attempt on one record throws (serialising or
    writing), every record iterated after it is still attempted. *)
Theorem forwardMessage_attempts_every_record {R : Runtime}
  (message : JsValue) (w : World) :
  exists w' successCount failCount,
    forwardMessage message w = (Returns tt, w') /\
    socketLog w' =
      (socketLog w ++
       (info, BroadcastStart (getClientCount w)) ::
       flat_map (attemptLog w message) (clients w) ++
       [(info, BroadcastDone successCount failCount)])%list /\
    (forall h,
       sent (heap w' h) =
       (sent (heap w h) ++
        flat_map (attemptWrites w message h) (clients w))%list) /\
    successCount = countDelivered w message (clients w) /\
    failCount = countFailed w message (clients w) /\
    successCount + failCount = getClientCount w /\
    (forall entry, In entry (clients w) -> attempted w w' message entry) /\
    (forall before k clientInfo e after,
       clients w = (before ++ (k, clientInfo) :: after)%list ->
       delivery w message clientInfo = Failed e ->
       In (error, BroadcastSendFailed k (errorMessage e)) (newLog w w') /\
       forall entry, In entry after -> attempted w w' message entry).
Proof.
  destruct (forwardMessage_spec message w) as (w' & E & F & L & W).
  exists w', (countDelivered w message (clients w)),
    (countFailed w message (clients w)).
  pose proof (attempted_after_broadcast message w w' _ L W) as A.
  repeat (split; [first [assumption | reflexivity | apply count_total]|]).
  intros before k ci e after Hsplit D.
  split.
  - specialize (A (k, ci)). unfold attempted in A. cbn [fst snd] in A.
    rewrite D in A. apply A. rewrite Hsplit. apply in_elt.
  - intros entry Hin. apply A. rewrite Hsplit.
    apply in_or_app. right. now right.
Qed.

(** ** Unicast *)

(** Closes a case of the decision table of [sendToClient]: the record,
    the serialised text and the error named by the hypotheses are those
    the call met. *)
Ltac unicast_case :=
  intros;
  repeat match goal with
         | H : Some _ = Some _ |- _ => inversion H; subst; clear H
         | H : inr _ = inr _ |- _ => inversion H; subst; clear H
         end;
  try reflexivity; try congruence.

(** C5.  [sendToClient] never throws.  It returns [false] when the
    identity is not registered, [false] when the connection of the record
    is not open, [true] when the write succeeds (and then the payload was
    written to that connection), and [false] when serialising or writing
    throws. *)
Theorem sendToClient_reports_delivery {R : Runtime}
  (clientId : string) (message : JsValue) (w : World) :
  exists delivered w',
    sendToClient clientId message w = (Returns delivered, w') /\
    (getClient clientId w = None -> delivered = false) /\
    (forall clientInfo,
       getClient clientId w = Some clientInfo ->
       readyState (heap w (ws clientInfo)) <> 1%Z ->
       delivered = false) /\
    (forall clientInfo text,
       getClient clientId w = Some clientInfo ->
       readyState (heap w (ws clientInfo)) = 1%Z ->
       JSON_stringify message = inr text ->
       sendFails (heap w (ws clientInfo)) text = None ->
       delivered = true /\
       sent (heap w' (ws clientInfo)) =
         (sent (heap w (ws clientInfo)) ++ [text])%list) /\
    (forall clientInfo text e,
       getClient clientId w = Some clientInfo ->
       readyState (heap w (ws clientInfo)) = 1%Z ->
       JSON_stringify message = inr text ->
       sendFails (heap w (ws clientInfo)) text = Some e ->
       delivered = false) /\
    (forall clientInfo e,
       getClient clientId w = Some clientInfo ->
       readyState (heap w (ws clientInfo)) = 1%Z ->
       JSON_stringify message = inl e ->
       delivered = false).
Proof.
  rewrite sendToClient_eq. unfold getClient.
  destruct (JsMap.get clientId (clients w)) as [ci|].
  - unfold delivery. cbv zeta.
    destruct (Z.eqb_spec (readyState (heap w (ws ci))) 1) as [Hopen|Hclosed].
    + destruct (JSON_stringify message) as [e|text].
      * do 2 eexists. split; [reflexivity|]. repeat split; unicast_case.
      * destruct (sendFails (heap w (ws ci)) text) as [e|] eqn:Hsend.
        -- do 2 eexists. split; [reflexivity|]. repeat split; unicast_case.
        -- do 2 eexists. split; [reflexivity|]. repeat split; unicast_case.
           cbn [heap withSocketLog withHeap]. rewrite sent_written.
           now rewrite Nat.eqb_refl.
    + do 2 eexists. split; [reflexivity|]. repeat split; unicast_case.
  - do 2 eexists. split; [reflexivity|]. repeat split; unicast_case.
Qed.

(** ** Sending does not touch the registry *)

Lemma sendToClient_onlySends {R : Runtime} k message w :
  onlySends w (snd (sendToClient k message w)).
Proof.
  rewrite sendToClient_eq.
  destruct (JsMap.get k (clients w)) as [ci|]; [|apply onlySends_logged].
  destruct (delivery w message ci); cbn [snd];
    try apply onlySends_logged.
  eapply onlySends_trans; [apply onlySends_written | apply onlySends_logged].
Qed.

Lemma forwardMessage_onlySends {R : Runtime} message w :
  onlySends w (snd (forwardMessage message w)).
Proof.
  destruct (forwardMessage_spec message w) as (w' & E & F & _).
  now rewrite E.
Qed.

(** C10.  Neither [forwardMessage] nor [sendToClient] modifies the
    registry: after either call the mapping is the one before the call,
    so [getClientCount()], [getClientIds()] and every [getClient(id)]
    give what they gave before, however many deliveries failed. *)
Theorem sending_leaves_registry_unchanged {R : Runtime}
  (clientId : string) (message : JsValue) (w : World) :
  (clients (snd (forwardMessage message w)) = clients w /\
   getClientCount (snd (forwardMessage message w)) = getClientCount w /\
   getClientIds (snd (forwardMessage message w)) = getClientIds w /\
   forall i, getClient i (snd (forwardMessage message w)) = getClient i w) /\
  (clients (snd (sendToClient clientId message w)) = clients w /\
   getClientCount (snd (sendToClient clientId message w)) =
     getClientCount w /\
   getClientIds (snd (sendToClient clientId message w)) = getClientIds w /\
   forall i,
     getClient i (snd (sendToClient clientId message w)) = getClient i w).
Proof.
  pose proof (forwardMessage_onlySends message w) as [F _].
  pose proof (sendToClient_onlySends clientId message w) as [S _].
  unfold getClientCount, getClientIds, getClient.
  rewrite F, S. repeat split.
Qed.

(** ** The invariant of the registry *)

Lemma RoomInv_same_clients w w' :
  clients w' = clients w -> RoomInv w -> RoomInv w'.
Proof. unfold RoomInv, getClientIds. now intros ->. Qed.

Lemma RoomInv_empty w : clients w = [] -> RoomInv w.
Proof.
  unfold RoomInv, getClientIds. intros ->. split; constructor.
Qed.

Lemma RoomInv_join client clientId w :
  RoomInv w -> RoomInv (snd (join client clientId w)).
Proof.
  intros [Hnd Hall]. rewrite join_eq. unfold RoomInv, getClientIds.
  cbn [snd clients]. split.
  - now apply JsMapFacts.NoDup_keys_set.
  - apply JsMapFacts.Forall_set; [|exact Hall].
    cbn [fst snd id]. split; [reflexivity | apply joinId_nonempty].
Qed.

Lemma RoomInv_leave clientOrId w :
  RoomInv w -> RoomInv (snd (leave clientOrId w)).
Proof.
  intros [Hnd Hall]. rewrite leave_eq. cbv zeta.
  destruct (truthy (resolve clientOrId w)); [|now split].
  unfold RoomInv, getClientIds. cbn [snd clients]. split.
  - now apply JsMapFacts.NoDup_keys_remove.
  - now apply JsMapFacts.Forall_remove.
Qed.

Lemma RoomInv_call {R : Runtime} c w : RoomInv w -> RoomInv (call c w).
Proof.
  destruct c as [client cid|arg|message|k message|]; cbn [call].
  - apply RoomInv_join.
  - apply RoomInv_leave.
  - apply RoomInv_same_clients, forwardMessage_onlySends.
  - apply RoomInv_same_clients, sendToClient_onlySends.
  - intros _. now apply RoomInv_empty.
Qed.

Lemma RoomInv_runCalls {R : Runtime} calls :
  forall w, RoomInv w -> RoomInv (runCalls calls w).
Proof.
  unfold runCalls. induction calls as [|c calls IH]; intros w Hw.
  - exact Hw.
  - cbn [fold_left]. apply IH. now apply RoomInv_call.
Qed.

Lemma RoomInv_reachable {R : Runtime} w0 calls :
  RoomInv (runCalls calls (snd (Room_new w0))).
Proof. apply RoomInv_runCalls. now apply RoomInv_empty. Qed.

Lemma RoomInv_key_nonempty w k v :
  RoomInv w -> getClient k w = Some v -> k <> "" /\ id v = k.
Proof.
  intros [_ Hall] Hget. apply JsMapFacts.get_in in Hget.
  rewrite Forall_forall in Hall. destruct (Hall _ Hget) as [Hid Hne].
  now split.
Qed.

Lemma RoomInv_no_empty_key w : RoomInv w -> getClient "" w = None.
Proof.
  intros Hinv. destruct (getClient "" w) as [v|] eqn:E; [|reflexivity].
  now destruct (RoomInv_key_nonempty w "" v Hinv E).
Qed.

(** ** One record per identity *)

(** C2.  After every sequence of registry operations on a new room the
    identities of the registry are pairwise distinct (each record stored
    under the identity it carries).  A [join] with an identity that is
    already registered replaces the record in place: the identities and
    their number stay as they were, [getClient(id)] is the new record with
    the new connection handle, the records of the other identities are
    untouched, and the old record is no longer found under any identity
    (unless it is, field by field, the new one). *)
Theorem join_replaces_record_of_same_identity {R : Runtime} :
  (forall w0 calls, RoomInv (runCalls calls (snd (Room_new w0)))) /\
  (forall w client clientId old,
     RoomInv w ->
     getClient clientId w = Some old ->
     exists w',
       join client (Some clientId) w = (Returns clientId, w') /\
       RoomInv w' /\
       getClient clientId w' =
         Some (mkClientInfo client clientId (clock w (ticks w))) /\
       getClientIds w' = getClientIds w /\
       getClientCount w' = getClientCount w /\
       (forall k, k <> clientId -> getClient k w' = getClient k w) /\
       (forall k,
          getClient k w' = Some old ->
          old = mkClientInfo client clientId (clock w (ticks w)))).
Proof.
  split; [apply RoomInv_reachable|].
  intros w client clientId old Hinv Hold.
  destruct (RoomInv_key_nonempty _ _ _ Hinv Hold) as [Hne Hid].
  pose proof (RoomInv_join client (Some clientId) w Hinv) as Hinv'.
  assert (Hhas : JsMap.has clientId (clients w) = true).
  { unfold JsMap.has. unfold getClient in Hold. now rewrite Hold. }
  rewrite join_eq in *. unfold joinId in *.
  apply truthy_nonempty in Hne. rewrite Hne in *. cbn [stringOf snd] in *.
  cbv zeta in *. eexists. split; [reflexivity|].
  unfold getClient, getClientIds, getClientCount. cbn [clients].
  split; [exact Hinv'|].
  split; [apply JsMapFacts.get_set_same|].
  split; [now rewrite JsMapFacts.keys_set, Hhas|].
  split; [now rewrite JsMapFacts.size_set, Hhas|].
  split; [intros k Hk; now apply JsMapFacts.get_set_other|].
  intros k Hget. destruct (String.eqb_spec k clientId) as [->|Hk].
  - rewrite JsMapFacts.get_set_same in Hget. congruence.
  - rewrite JsMapFacts.get_set_other in Hget by exact Hk.
    destruct (RoomInv_key_nonempty w k old Hinv Hget) as [_ Hid'].
    congruence.
Qed.

(** ** Generated identities *)

(** C4, as the code has it.  Without a supplied identity [join]
    registers the client under the lower-case hexadecimal encoding of the
    next eight bytes of the cryptographic random source: sixteen
    hexadecimal characters, from which the eight bytes can be read
    back. *)
Theorem generated_identity_is_eight_random_bytes (client : handle)
  (w : World) :
  exists w',
    join client None w = (Returns (generatedId w), w') /\
    String.length (generatedId w) = 16 /\
    allChars isHexDigit (generatedId w) = true /\
    Buffer_from_hex (generatedId w) =
      Some (List.map (entropy w) (List.seq (drawn w) 8)) /\
    drawn w' = drawn w + 8.
Proof.
  rewrite join_eq. eexists. split; [reflexivity|].
  split; [apply generatedId_length|].
  split; [apply hex_digits|].
  split; [apply hex_roundtrip | reflexivity].
Qed.

(** C9.  A supplied identity that is falsy (the empty string) is
    treated as omitted: the call does what [join(client)] does, the
    client is registered under a freshly generated identity, which is
    sixteen hexadecimal characters that read back as the next eight bytes
    of the random source (which the call consumes), and so is not the
    empty string; and after every sequence of registry operations on a
    new room the empty string is not an identity of the registry. *)
Theorem empty_identity_is_replaced_by_generated_one {R : Runtime}
  (client : handle) (w : World) :
  join client (Some "") w = join client None w /\
  (exists i w',
     join client (Some "") w = (Returns i, w') /\
     i = generatedId w /\
     String.length i = 16 /\
     allChars isHexDigit i = true /\
     Buffer_from_hex i =
       Some (List.map (entropy w) (List.seq (drawn w) 8)) /\
     i <> "" /\
     getClient i w' = Some (mkClientInfo client i (clock w (ticks w))) /\
     clientId (heap w' client) = Some i /\
     drawn w' = drawn w + 8) /\
  (exists w',
     join client (Some "") w = (Returns (generatedId w), w') /\
     getClient (generatedId w) w' =
       Some (mkClientInfo client (generatedId w) (clock w (ticks w))) /\
     clientId (heap w' client) = Some (generatedId w) /\
     drawn w' = drawn w + 8) /\
  generatedId w <> "" /\
  (forall w0 calls,
     ~ In "" (getClientIds (runCalls calls (snd (Room_new w0)))) /\
     getClient "" (runCalls calls (snd (Room_new w0))) = None).
Proof.
  assert (Hjoin : exists w',
     join client (Some "") w = (Returns (generatedId w), w') /\
     getClient (generatedId w) w' =
       Some (mkClientInfo client (generatedId w) (clock w (ticks w))) /\
     clientId (heap w' client) = Some (generatedId w) /\
     drawn w' = drawn w + 8).
  { rewrite join_eq. eexists. split; [reflexivity|].
    unfold getClient. cbn [clients heap drawn joinId truthy].
    split; [apply JsMapFacts.get_set_same|].
    split; [|reflexivity].
    unfold updateObject. now rewrite Nat.eqb_refl. }
  split; [reflexivity|]. split; [|split; [exact Hjoin|split]].
  - destruct Hjoin as (w' & E & G & I & D).
    exists (generatedId w), w'. split; [exact E|].
    split; [reflexivity|].
    split; [apply generatedId_length|].
    split; [apply hex_digits|].
    split; [apply hex_roundtrip|].
    split; [apply generatedId_nonempty|].
    now repeat split.
  - apply generatedId_nonempty.
  - intros w0 calls.
    pose proof (RoomInv_no_empty_key _ (RoomInv_reachable w0 calls)) as H.
    split; [|exact H]. now apply JsMapFacts.get_none_iff.
Qed.

(** ** Leaving *)

Lemma has_get {V} k (m : JsMap.t V) :
  JsMap.has k m = match JsMap.get k m with Some _ => true | None => false end.
Proof. reflexivity. Qed.

(** C6.  [leave] takes an identity or a connection handle; for a
    handle the identity is the [clientId] that [join] attached to it.
    It never throws.  When the resolved identity is registered, its
    record is removed (the other records stay) and the result is [true];
    when it is not registered, or nothing resolves, the result is [false]
    and the registry is unchanged.  A handle that was just joined
    resolves to the identity [join] returned, and leaving with it removes
    that record. *)
Theorem leave_removes_the_resolved_identity
  (clientOrId : string + handle) (w : World) :
  RoomInv w ->
  (exists removed w',
     leave clientOrId w = (Returns removed, w') /\
     match resolve clientOrId w with
     | Some i =>
         match getClient i w with
         | Some _ =>
             removed = true /\
             getClient i w' = None /\
             S (getClientCount w') = getClientCount w /\
             (forall k, k <> i -> getClient k w' = getClient k w)
         | None => removed = false /\ clients w' = clients w
         end
     | None => removed = false /\ clients w' = clients w
     end) /\
  (forall client clientId,
     exists i w1 w2,
       join client clientId w = (Returns i, w1) /\
       resolve (inr client) w1 = Some i /\
       leave (inr client) w1 = (Returns true, w2) /\
       getClient i w2 = None).
Proof.
  intros Hinv. split.
  - rewrite leave_eq. cbv zeta.
    destruct (resolve clientOrId w) as [i|] eqn:Hres; cbn [truthy stringOf].
    + destruct (String.eqb_spec i "") as [->|Hne]; cbn [negb].
      * do 2 eexists. split; [reflexivity|].
        rewrite (RoomInv_no_empty_key w Hinv). now split.
      * do 2 eexists. split; [reflexivity|].
        unfold getClient, getClientCount. cbn [clients]. rewrite has_get.
        destruct (JsMap.get i (clients w)) as [v|] eqn:Hget.
        -- split; [reflexivity|].
           split; [apply JsMapFacts.get_remove_same, Hinv|].
           split; [apply JsMapFacts.size_remove_present;
                   unfold JsMap.has; now rewrite Hget|].
           intros k Hk. now apply JsMapFacts.get_remove_other.
        -- split; [reflexivity|]. apply JsMapFacts.remove_absent.
           unfold JsMap.has. now rewrite Hget.
    + do 2 eexists. split; [reflexivity|]. now split.
  - intros client cid.
    pose proof (RoomInv_join client cid w Hinv) as Hinv1.
    pose proof (joinId_nonempty cid w) as Hne.
    rewrite join_eq in *. cbv zeta in *. cbn [snd] in Hinv1.
    do 3 eexists. split; [reflexivity|].
    rewrite leave_eq. cbv zeta.
    assert (Hres : forall hp lg co en dr cl ti m,
      resolve (inr client)
        (mkWorld m
           (updateObject client (fun o =>
              mkWebSocket (Some (joinId cid w)) (readyState o)
                (sendFails o) (sent o)) hp) lg co en dr cl ti) =
      Some (joinId cid w)).
    { intros. unfold resolve, updateObject. cbn [heap].
      now rewrite Nat.eqb_refl. }
    rewrite Hres. split; [reflexivity|].
    apply truthy_nonempty in Hne. rewrite Hne. cbn [stringOf clients].
    unfold JsMap.has. rewrite JsMapFacts.get_set_same.
    split; [reflexivity|].
    unfold getClient. cbn [clients].
    apply JsMapFacts.get_remove_same, Hinv1.
Qed.

(** ** Joining and leaving again *)

(** C8, as the code has it.  In a registry that satisfies its
    invariant, [join] followed at once by [leave] on the identity that
    [join] returned succeeds, and a second [leave] on that identity
    returns [false].  The client count is the one before the [join] when
    the identity was not registered then (so it is 0 from an empty
    registry); when it was, the [join] replaced its record and the count is
    one less. *)
Theorem join_then_leave_restores_count (client : handle)
  (clientId : option string) (w : World) :
  RoomInv w ->
  exists i w1 w2 w3,
    join client clientId w = (Returns i, w1) /\
    leave (inl i) w1 = (Returns true, w2) /\
    leave (inl i) w2 = (Returns false, w3) /\
    (getClient i w = None -> getClientCount w2 = getClientCount w) /\
    (getClientCount w = 0 -> getClientCount w2 = 0) /\
    (forall old,
       getClient i w = Some old -> S (getClientCount w2) = getClientCount w).
Proof.
  intros Hinv.
  pose proof (RoomInv_join client clientId w Hinv) as Hinv1.
  pose proof (joinId_nonempty clientId w) as Hne.
  apply truthy_nonempty in Hne.
  rewrite join_eq in *. cbv zeta in *. cbn [snd] in Hinv1.
  set (i := joinId clientId w) in *.
  set (rec := mkClientInfo client i (clock w (ticks w))) in *.
  assert (Hhas1 : JsMap.has i (JsMap.set i rec (clients w)) = true).
  { unfold JsMap.has. now rewrite JsMapFacts.get_set_same. }
  assert (Hhas2 :
    JsMap.has i (JsMap.remove i (JsMap.set i rec (clients w))) = false).
  { unfold JsMap.has. now rewrite JsMapFacts.get_remove_same by apply Hinv1. }
  do 4 eexists. split; [reflexivity|].
  split.
  { rewrite leave_eq. cbv zeta. cbn [resolve]. rewrite Hne.
    cbn [stringOf clients]. rewrite Hhas1. reflexivity. }
  split.
  { rewrite leave_eq. cbv zeta. cbn [resolve]. rewrite Hne.
    cbn [stringOf clients]. rewrite Hhas2. reflexivity. }
  pose proof (JsMapFacts.size_remove_present i _ Hhas1) as Hsize.
  rewrite JsMapFacts.size_set, has_get in Hsize.
  unfold getClient, getClientCount. cbn [clients].
  assert (Hnone : JsMap.get i (clients w) = None ->
                  JsMap.size (JsMap.remove i (JsMap.set i rec (clients w))) =
                  JsMap.size (clients w)).
  { intros Hget. rewrite Hget in Hsize. congruence. }
  split; [exact Hnone|]. split.
  - intros Hzero. rewrite Hnone; [exact Hzero|].
    unfold JsMap.size in Hzero. now destruct (clients w).
  - intros old Hget. now rewrite Hget in Hsize.
Qed.

(** ** The coordinator *)

Lemma onMessage_malformed {R : Runtime} messageStr e w :
  JSON_parse messageStr = inl e ->
  onMessage messageStr w =
  (Returns tt,
   withSocketLog (fun l =>
     l ++ [(info, MessageReceived messageStr);
           (error, MessageFailed (errorMessage e))])%list w).
Proof.
  intros Hparse.
  unfold onMessage, tryCatch, bind, SocketLogger, modify, parse.
  rewrite Hparse. unfold throw, withSocketLog. cbn.
  now rewrite <- app_assoc.
Qed.

(** A text that parses is broadcast: the handler runs [forwardMessage]
    on the parsed value. *)
Lemma onMessage_wellformed {R : Runtime} messageStr v w :
  JSON_parse messageStr = inr v ->
  onMessage messageStr w =
  forwardMessage v
    (withSocketLog (fun l => l ++ [(info, MessageReceived messageStr)])%list
       w).
Proof.
  intros Hparse.
  unfold onMessage, tryCatch, bind, SocketLogger, modify, parse.
  rewrite Hparse. unfold ret.
  set (w1 := withSocketLog _ w).
  destruct (forwardMessage_spec v w1) as (w' & E & _).
  now rewrite E.
Qed.

(** C7.  When the text of an inbound message does not parse, the
    handler returns normally; what it adds to the log is the receipt and
    the report of the failure, and no start of a broadcast (which
    [forwardMessage] logs first of all); no connection is written to or
    changes state, and the registry, so the client count, is as
    before. *)
Theorem malformed_message_is_reported_and_dropped {R : Runtime}
  (messageStr : string) (e : JsError) (w : World) :
  JSON_parse messageStr = inl e ->
  exists w',
    onMessage messageStr w = (Returns tt, w') /\
    socketLog w' = (socketLog w ++ newLog w w')%list /\
    newLog w w' =
      [(info, MessageReceived messageStr);
       (error, MessageFailed (errorMessage e))] /\
    (forall n, ~ In (info, BroadcastStart n) (newLog w w')) /\
    heap w' = heap w /\
    clients w' = clients w /\
    getClientCount w' = getClientCount w.
Proof.
  intros Hparse. rewrite (onMessage_malformed messageStr e w Hparse).
  eexists. split; [reflexivity|].
  unfold newLog. cbn [socketLog withSocketLog]. rewrite skipn_app_length.
  split; [reflexivity|]. split; [reflexivity|].
  split; [|now repeat split].
  intros n [H|[H|[]]]; discriminate.
Qed.

Lemma onConnection_without_cookie {R : Runtime} ws w :
  onConnection ws None w =
  (Throws (mkError "TypeError"
             "Cannot read properties of undefined (reading 'split')"),
   withConsoleOut (fun l => l ++ [None])%list
     (withSocketLog (fun l => l ++ [(info, ConnectionOpened)])%list w)).
Proof. reflexivity. Qed.

Lemma accepted_eq ws cookie w :
  accepted ws cookie w =
  mkWorld
    (JsMap.set (generatedId w)
       (mkClientInfo ws (generatedId w) (clock w (ticks w))) (clients w))
    (updateObject ws (fun o =>
       mkWebSocket (Some (generatedId w)) (readyState o) (sendFails o)
         (sent o)) (heap w))
    ((socketLog w ++ [(info, ConnectionOpened)]) ++
     [(info, ClientJoined (generatedId w)
               (JsMap.size
                  (JsMap.set (generatedId w)
                     (mkClientInfo ws (generatedId w) (clock w (ticks w)))
                     (clients w))))])%list
    (consoleOut w ++ [Some cookie])%list
    (entropy w) (drawn w + 8) (clock w) (S (ticks w)).
Proof. unfold accepted. rewrite join_eq. reflexivity. Qed.

(** The handler on a connection with a cookie header: the client is
    registered, the clock is read, and the outcome is that of
    serialising and writing the acknowledgment. *)
Lemma onConnection_with_cookie_eq {R : Runtime} ws cookie w :
  onConnection ws (Some cookie) w =
  match JSON_stringify (connectedAck (toISOString (clock w (S (ticks w)))))
  with
  | inl e =>
      (Throws e, withTicks (S (S (ticks w))) (accepted ws cookie w))
  | inr text =>
      match sendFails (heap w ws) text with
      | Some e =>
          (Throws e, withTicks (S (S (ticks w))) (accepted ws cookie w))
      | None =>
          (Returns tt,
           withHeap (updateObject ws (written text))
             (withTicks (S (S (ticks w))) (accepted ws cookie w)))
      end
  end.
Proof.
  set (w0 := withConsoleOut (fun l => l ++ [Some cookie])%list
               (withSocketLog
                  (fun l => l ++ [(info, ConnectionOpened)])%list w)).
  assert (E0 : onConnection ws (Some cookie) w =
               (_ <- join ws None ;;
                now <- newDate ;;
                text <- stringify (connectedAck (toISOString now)) ;;
                ws_send ws text) w0) by reflexivity.
  rewrite E0. unfold bind at 1.
  assert (Ej : join ws None w0 = (Returns (generatedId w), accepted ws cookie w)).
  { unfold accepted. fold w0. rewrite join_eq. reflexivity. }
  rewrite Ej. rewrite accepted_eq.
  unfold bind, newDate, stringify.
  cbn -[generatedId JsMap.set connectedAck].
  destruct (JSON_stringify _) as [e|text]; [reflexivity|].
  unfold ret, ws_send. cbn -[generatedId JsMap.set connectedAck].
  unfold updateObject at 1. rewrite Nat.eqb_refl. cbn [sendFails].
  destruct (sendFails (heap w ws) text); reflexivity.
Qed.

(** C3, as the code has it.  For a newly accepted connection whose
    handshake carries a cookie header, whatever its text, the handler
    calls [join] without an identity, so the connection is registered
    under a generated identity that is attached to it, and then
    serialises and writes to that connection the acknowledgment
    [{ type: "connected", message, timestamp }], whose timestamp is the
    clock's reading after the one [join] made and whose fields do not
    include the identity.  When serialising and the write succeed the
    handler returns and the acknowledgment is what was written; when
    either throws, the handler throws that error, the client stays
    registered and nothing was written. *)
Theorem connection_with_cookie_is_joined_and_acknowledged {R : Runtime}
  (ws : handle) (cookie : string) (w : World) :
  exists outcome w',
    onConnection ws (Some cookie) w = (outcome, w') /\
    clients w' =
      JsMap.set (generatedId w)
        (mkClientInfo ws (generatedId w) (clock w (ticks w))) (clients w) /\
    getClient (generatedId w) w' =
      Some (mkClientInfo ws (generatedId w) (clock w (ticks w))) /\
    clientId (heap w' ws) = Some (generatedId w) /\
    connectedAck (toISOString (clock w (S (ticks w)))) =
      JObj [("type", JStr "connected");
            ("message", JStr connectedMessage);
            ("timestamp", JStr (toISOString (clock w (S (ticks w)))))] /\
    match JSON_stringify (connectedAck (toISOString (clock w (S (ticks w)))))
    with
    | inl e => outcome = Throws e /\ sent (heap w' ws) = sent (heap w ws)
    | inr text =>
        match sendFails (heap w ws) text with
        | Some e =>
            outcome = Throws e /\ sent (heap w' ws) = sent (heap w ws)
        | None =>
            outcome = Returns tt /\
            sent (heap w' ws) = (sent (heap w ws) ++ [text])%list
        end
    end.
Proof.
  rewrite onConnection_with_cookie_eq, accepted_eq.
  destruct (JSON_stringify _) as [e|text].
  - do 2 eexists. split; [reflexivity|].
    unfold getClient. cbn [clients heap withTicks].
    split; [reflexivity|]. split; [apply JsMapFacts.get_set_same|].
    unfold updateObject. rewrite Nat.eqb_refl. cbn. now repeat split.
  - destruct (sendFails (heap w ws) text) as [e|].
    + do 2 eexists. split; [reflexivity|].
      unfold getClient. cbn [clients heap withTicks].
      split; [reflexivity|]. split; [apply JsMapFacts.get_set_same|].
      unfold updateObject. rewrite Nat.eqb_refl. cbn. now repeat split.
    + do 2 eexists. split; [reflexivity|].
      unfold getClient. cbn [clients heap withTicks withHeap].
      split; [reflexivity|]. split; [apply JsMapFacts.get_set_same|].
      unfold updateObject. rewrite !Nat.eqb_refl. cbn. now repeat split.
Qed.

(** * The model at work *)

(** The scenario of the specification, with a fourth client behind a
    connection whose write throws: the broadcast reaches A and D once
    each, reports the closed B and the throwing C, and counts two
    successes and two failures. *)
Example broadcast_with_closed_and_throwing_clients :
  fst (forwardMessage chatMessage fourClients) = Returns tt /\
  getClientIds fourClients = ["A"; "B"; "C"; "D"] /\
  sent (heap (snd (forwardMessage chatMessage fourClients)) 0) =
    [refStringifyValue chatMessage] /\
  sent (heap (snd (forwardMessage chatMessage fourClients)) 1) = [] /\
  sent (heap (snd (forwardMessage chatMessage fourClients)) 2) = [] /\
  sent (heap (snd (forwardMessage chatMessage fourClients)) 3) =
    [refStringifyValue chatMessage] /\
  newLog fourClients (snd (forwardMessage chatMessage fourClients)) =
    [(info, BroadcastStart 4);
     (warn, BroadcastClosed "B");
     (error, BroadcastSendFailed "C" "socket hang up");
     (info, BroadcastDone 2 2)].
Proof. repeat split; vm_compute; reflexivity. Qed.

Example unicast_decisions :
  fst (sendToClient "A" chatMessage fourClients) = Returns true /\
  fst (sendToClient "B" chatMessage fourClients) = Returns false /\
  fst (sendToClient "C" chatMessage fourClients) = Returns false /\
  fst (sendToClient "E" chatMessage fourClients) = Returns false.
Proof. repeat split; vm_compute; reflexivity. Qed.

Example reference_runtime_values :
  refToISOString 0 = "1970-01-01T00:00:00.000Z" /\
  refToISOString 951782400000 = "2000-02-29T00:00:00.000Z" /\
  refToISOString (-1) = "1969-12-31T23:59:59.999Z" /\
  refStringify (JArr [JNum (-5); JNull; JBool true; JStr "a\b"]) =
    inr ("[-5,null,true," ++ quoteString "a\b" ++ "]") /\
  refParse "[1, -20, [], true ]" =
    inr (JArr [JNum 1; JNum (-20); JArr []; JBool true]) /\
  refParse (refStringifyValue chatMessage) = inr chatMessage /\
  refParse "{not json" = inl syntaxError /\
  refParse "01" = inl syntaxError.
Proof. repeat split; vm_compute; reflexivity. Qed.

(** * The theorems at concrete inputs *)

(** C1 in the room of four: C's write throws, and D, iterated after
    it, is attempted all the same. *)
Lemma forwardMessage_attempts_every_record_witness :
  exists w',
    forwardMessage chatMessage fourClients = (Returns tt, w') /\
    In (error, BroadcastSendFailed "C" "socket hang up")
      (newLog fourClients w') /\
    attempted fourClients w' chatMessage ("D", mkClientInfo 3 "D" 3000).
Proof.
  destruct (forwardMessage_attempts_every_record chatMessage fourClients)
    as (w' & s & f & E & _ & _ & _ & _ & _ & _ & Hiso).
  exists w'. split; [exact E|].
  destruct (Hiso [("A", mkClientInfo 0 "A" 0); ("B", mkClientInfo 1 "B" 1000)]
              "C" (mkClientInfo 2 "C" 2000)
              (mkError "Error" "socket hang up")
              [("D", mkClientInfo 3 "D" 3000)]) as [Hlog Hafter].
  - vm_compute; reflexivity.
  - vm_compute; reflexivity.
  - split; [exact Hlog|]. apply Hafter. now left.
Defined.

(** C2 in the room of four: B joins again on connection 9. *)
Lemma join_replaces_record_of_same_identity_witness :
  RoomInv fourClients /\
  getClient "B" fourClients = Some (mkClientInfo 1 "B" 1000) /\
  exists w',
    join 9 (Some "B") fourClients = (Returns "B", w') /\
    RoomInv w' /\
    getClient "B" w' =
      Some (mkClientInfo 9 "B" (clock fourClients (ticks fourClients))) /\
    getClientIds w' = getClientIds fourClients /\
    getClientCount w' = getClientCount fourClients /\
    (forall k, k <> "B" -> getClient k w' = getClient k fourClients) /\
    (forall k,
       getClient k w' = Some (mkClientInfo 1 "B" 1000) ->
       mkClientInfo 1 "B" 1000 =
       mkClientInfo 9 "B" (clock fourClients (ticks fourClients))).
Proof.
  assert (Hinv : RoomInv fourClients).
  { exact (proj1 join_replaces_record_of_same_identity faultyWorld
             [CallJoin 0 (Some "A"); CallJoin 1 (Some "B");
              CallJoin 2 (Some "C"); CallJoin 3 (Some "D")]). }
  assert (Hold : getClient "B" fourClients = Some (mkClientInfo 1 "B" 1000)).
  { vm_compute; reflexivity. }
  split; [exact Hinv|]. split; [exact Hold|].
  exact (proj2 join_replaces_record_of_same_identity fourClients 9 "B"
           (mkClientInfo 1 "B" 1000) Hinv Hold).
Defined.

(** C3, amended, at a fresh world: the handshake carries a cookie. *)
Lemma connection_with_cookie_is_joined_and_acknowledged_witness :
  exists w',
    onConnection 0 (Some "user=alice") freshWorld = (Returns tt, w') /\
    getClient (generatedId freshWorld) w' =
      Some (mkClientInfo 0 (generatedId freshWorld)
              (clock freshWorld (ticks freshWorld))) /\
    clientId (heap w' 0) = Some (generatedId freshWorld) /\
    sent (heap w' 0) =
      (sent (heap freshWorld 0) ++
       [refStringifyValue (connectedAck "1970-01-01T00:00:01.000Z")])%list.
Proof.
  destruct (connection_with_cookie_is_joined_and_acknowledged 0 "user=alice"
              freshWorld) as (outcome & w' & E & _ & G & I & _ & Hs).
  assert (Hack :
    JSON_stringify
      (connectedAck (toISOString (clock freshWorld (S (ticks freshWorld))))) =
    inr (refStringifyValue (connectedAck "1970-01-01T00:00:01.000Z"))).
  { vm_compute; reflexivity. }
  rewrite Hack in Hs.
  change (sendFails (heap freshWorld 0)
            (refStringifyValue (connectedAck "1970-01-01T00:00:01.000Z")))
    with (@None JsError) in Hs.
  destruct Hs as [-> Hs]. exists w'.
  split; [exact E|]. split; [exact G|]. split; [exact I | exact Hs].
Defined.

(** C3 as stated fails twice.  Without a cookie header the handler
    throws before it reaches [join]: nothing is registered and nothing is
    written to the connection.  With a cookie header the acknowledgment is
    written, and the identity the client was registered under occurs
    nowhere in it. *)
Lemma connection_without_cookie_is_not_joined :
  (fst (onConnection 0 None freshWorld) =
     Throws (mkError "TypeError"
               "Cannot read properties of undefined (reading 'split')") /\
   getClientCount (snd (onConnection 0 None freshWorld)) = 0 /\
   sent (heap (snd (onConnection 0 None freshWorld)) 0) = []) /\
  (fst (onConnection 0 (Some "user=alice") freshWorld) = Returns tt /\
   getClientIds (snd (onConnection 0 (Some "user=alice") freshWorld)) =
     ["0001020304050607"] /\
   sent (heap (snd (onConnection 0 (Some "user=alice") freshWorld)) 0) =
     [refStringifyValue (connectedAck "1970-01-01T00:00:01.000Z")] /\
   String_includes
     (refStringifyValue (connectedAck "1970-01-01T00:00:01.000Z"))
     "0001020304050607" = false).
Proof. repeat split; vm_compute; reflexivity. Qed.

(** C4 as stated fails: the identity generated at a fresh world has
    sixteen hexadecimal characters, the encoding of eight bytes, not the
    thirty-two that sixteen bytes would take. *)
Lemma generated_identity_has_sixteen_characters :
  fst (join 0 None freshWorld) = Returns "0001020304050607" /\
  String.length "0001020304050607" = 16 /\
  ~ (2 * 16 <= String.length "0001020304050607").
Proof.
  split; [vm_compute; reflexivity|]. split; [reflexivity|].
  cbn. lia.
Qed.

(** C5 in the room of four: A's connection is open and accepts the
    write. *)
Lemma sendToClient_reports_delivery_witness :
  exists w',
    sendToClient "A" chatMessage fourClients = (Returns true, w') /\
    sent (heap w' 0) =
      (sent (heap fourClients 0) ++ [refStringifyValue chatMessage])%list.
Proof.
  destruct (sendToClient_reports_delivery "A" chatMessage fourClients)
    as (delivered & w' & E & _ & _ & Hopen & _).
  destruct (Hopen (mkClientInfo 0 "A" 0) (refStringifyValue chatMessage))
    as [Htrue Hsent]; try (vm_compute; reflexivity).
  subst delivered. exists w'. split; [exact E | exact Hsent].
Defined.

(** C6 in the room of four: the connection of B leaves. *)
Lemma leave_removes_the_resolved_identity_witness :
  RoomInv fourClients /\
  (exists removed w',
     leave (inr 1) fourClients = (Returns removed, w') /\
     match resolve (inr 1) fourClients with
     | Some i =>
         match getClient i fourClients with
         | Some _ =>
             removed = true /\
             getClient i w' = None /\
             S (getClientCount w') = getClientCount fourClients /\
             (forall k, k <> i -> getClient k w' = getClient k fourClients)
         | None => removed = false /\ clients w' = clients fourClients
         end
     | None => removed = false /\ clients w' = clients fourClients
     end).
Proof.
  assert (Hinv : RoomInv fourClients).
  { exact (RoomInv_reachable faultyWorld
             [CallJoin 0 (Some "A"); CallJoin 1 (Some "B");
              CallJoin 2 (Some "C"); CallJoin 3 (Some "D")]). }
  split; [exact Hinv|].
  exact (proj1 (leave_removes_the_resolved_identity (inr 1) fourClients Hinv)).
Defined.

(** C7 in the room of four: the text of the specification's scenario. *)
Lemma malformed_message_is_reported_and_dropped_witness :
  JSON_parse "{not json" = inl syntaxError /\
  exists w',
    onMessage "{not json" fourClients = (Returns tt, w') /\
    socketLog w' = (socketLog fourClients ++ newLog fourClients w')%list /\
    newLog fourClients w' =
      [(info, MessageReceived "{not json");
       (error, MessageFailed (errorMessage syntaxError))] /\
    (forall n, ~ In (info, BroadcastStart n) (newLog fourClients w')) /\
    heap w' = heap fourClients /\
    clients w' = clients fourClients /\
    getClientCount w' = getClientCount fourClients.
Proof.
  assert (Hparse : JSON_parse "{not json" = inl syntaxError).
  { vm_compute; reflexivity. }
  split; [exact Hparse|].
  exact (malformed_message_is_reported_and_dropped "{not json" syntaxError
           fourClients Hparse).
Defined.

(** C8, amended, in the room of four: a client joins without an
    identity and leaves. *)
Lemma join_then_leave_restores_count_witness :
  RoomInv fourClients /\
  exists i w1 w2 w3,
    join 4 None fourClients = (Returns i, w1) /\
    leave (inl i) w1 = (Returns true, w2) /\
    leave (inl i) w2 = (Returns false, w3) /\
    (getClient i fourClients = None ->
     getClientCount w2 = getClientCount fourClients) /\
    (getClientCount fourClients = 0 -> getClientCount w2 = 0) /\
    (forall old,
       getClient i fourClients = Some old ->
       S (getClientCount w2) = getClientCount fourClients).
Proof.
  assert (Hinv : RoomInv fourClients).
  { exact (RoomInv_reachable faultyWorld
             [CallJoin 0 (Some "A"); CallJoin 1 (Some "B");
              CallJoin 2 (Some "C"); CallJoin 3 (Some "D")]). }
  split; [exact Hinv|].
  exact (join_then_leave_restores_count 4 None fourClients Hinv).
Defined.

(** C8 as stated fails: B is registered; a [join] with the identity B
    replaces its record, and the [leave] that follows removes it, so the
    room of four is left with three clients. *)
Lemma join_on_taken_identity_then_leave_loses_a_client :
  getClientCount fourClients = 4 /\
  fst (join 9 (Some "B") fourClients) = Returns "B" /\
  fst (leave (inl "B") (snd (join 9 (Some "B") fourClients))) =
    Returns true /\
  getClientCount
    (snd (leave (inl "B") (snd (join 9 (Some "B") fourClients)))) = 3 /\
  getClientCount
    (snd (leave (inl "B") (snd (join 9 (Some "B") fourClients)))) <>
  getClientCount fourClients.
Proof.
  repeat split; try (vm_compute; reflexivity).
  vm_compute. discriminate.
Qed.

(** * Further properties of the registry and the coordinator *)

(** ** More on the Map *)

Lemma remove_set_absent {V} k (v : V) (m : JsMap.t V) :
  JsMap.get k m = None -> JsMap.remove k (JsMap.set k v m) = m.
Proof.
  induction m as [|[k' v'] m IH]; simpl.
  - now rewrite String.eqb_refl.
  - destruct (String.eqb_spec k' k) as [->|Hk]; [discriminate|].
    intros Hget. simpl. destruct (String.eqb_spec k' k); [contradiction|].
    now rewrite IH.
Qed.

Lemma keys_remove_filter {V} k (m : JsMap.t V) :
  NoDup (JsMap.keys m) ->
  JsMap.keys (JsMap.remove k m) =
  List.filter (fun k' => negb (String.eqb k' k)) (JsMap.keys m).
Proof.
  induction m as [|[k' v'] m IH]; simpl; intros Hnd; [reflexivity|].
  inversion Hnd as [|? ? Hnotin Hnd']; subst.
  destruct (String.eqb_spec k' k) as [->|Hk]; simpl.
  - symmetry. apply forallb_filter_id. apply forallb_forall.
    intros x Hx. destruct (String.eqb_spec x k); [subst; contradiction|].
    reflexivity.
  - now rewrite IH.
Qed.

Lemma filter_absent (k : string) (l : list string) :
  ~ In k l -> List.filter (fun k' => negb (String.eqb k' k)) l = l.
Proof.
  intros Hnotin. apply forallb_filter_id. apply forallb_forall.
  intros x Hx. destruct (String.eqb_spec x k); [subst; contradiction|].
  reflexivity.
Qed.

(** ** Joining *)

(** X1.  [join] never throws.  It registers the client under a
    non-empty identity, the supplied one when that is truthy; afterwards
    [getClient] of that identity is the new record with the connection
    and the time of the call, every other identity has the record it
    had, the identities keep their order (a new one goes last), the
    identity is attached to the connection, and nothing else about any
    connection changed: nothing is written to any of them. *)
Theorem join_registers_and_attaches (client : handle)
  (supplied : option string) (w : World) :
  exists i w',
    join client supplied w = (Returns i, w') /\
    i <> "" /\
    (truthy supplied = true -> supplied = Some i) /\
    getClient i w' = Some (mkClientInfo client i (clock w (ticks w))) /\
    (forall k, k <> i -> getClient k w' = getClient k w) /\
    getClientIds w' =
      match getClient i w with
      | Some _ => getClientIds w
      | None => (getClientIds w ++ [i])%list
      end /\
    clientId (heap w' client) = Some i /\
    (forall h, h <> client -> heap w' h = heap w h) /\
    (forall h,
       sent (heap w' h) = sent (heap w h) /\
       readyState (heap w' h) = readyState (heap w h) /\
       sendFails (heap w' h) = sendFails (heap w h)).
Proof.
  rewrite join_eq. cbv zeta. do 2 eexists. split; [reflexivity|].
  split; [apply joinId_nonempty|].
  split.
  { unfold joinId. destruct supplied as [s|]; [|discriminate].
    intros ->. reflexivity. }
  unfold getClient, getClientIds. cbn [clients heap].
  split; [apply JsMapFacts.get_set_same|].
  split; [intros k Hk; now apply JsMapFacts.get_set_other|].
  split.
  { rewrite JsMapFacts.keys_set. unfold JsMap.has.
    now destruct (JsMap.get (joinId supplied w) (clients w)). }
  unfold updateObject. split; [now rewrite Nat.eqb_refl|].
  split.
  - intros h Hh. destruct (Nat.eqb_spec h client); [contradiction|].
    reflexivity.
  - intros h. destruct (Nat.eqb h client); repeat split.
Qed.

Lemma joinAll_other i pairs :
  forall w0,
    ~ In i (List.map snd pairs) ->
    Forall (fun p => snd p <> "") pairs ->
    getClient i (joinAll pairs w0) = getClient i w0.
Proof.
  unfold joinAll.
  induction pairs as [|[c k] pairs IH]; intros w0 Hnotin Hne; [reflexivity|].
  cbn [fold_left fst snd]. inversion Hne as [|? ? Hk Hne']; subst.
  cbn [snd] in Hk. rewrite IH; [|cbn in Hnotin; tauto|exact Hne'].
  rewrite join_eq. cbv zeta. unfold getClient. cbn [snd clients].
  apply JsMapFacts.get_set_other. unfold joinId.
  apply truthy_nonempty in Hk. rewrite Hk. cbn [stringOf].
  cbn in Hnotin. intros ->. tauto.
Qed.

(** X2.  A series of joins with pairwise distinct, non-empty
    identities, none of them registered yet, adds exactly these
    identities, in the order of the calls: [getClientIds()] is extended
    by them, [getClientCount()] grows by their number, and each identity
    leads to the connection it was joined with. *)
Theorem joins_with_distinct_identities (pairs : list (handle * string))
  (w : World) :
  NoDup (List.map snd pairs) ->
  Forall (fun p => snd p <> "" /\ getClient (snd p) w = None) pairs ->
  getClientIds (joinAll pairs w) =
    (getClientIds w ++ List.map snd pairs)%list /\
  getClientCount (joinAll pairs w) = getClientCount w + List.length pairs /\
  forall p,
    In p pairs ->
    exists t,
      getClient (snd p) (joinAll pairs w) =
      Some (mkClientInfo (fst p) (snd p) t).
Proof.
  revert w. induction pairs as [|[c k] pairs IH]; intros w Hnd Hall.
  - cbn. rewrite app_nil_r, Nat.add_0_r. repeat split. intros p [].
  - inversion Hnd as [|? ? Hnotin Hnd']; subst.
    inversion Hall as [|? ? [Hk Hfree] Hall']; subst.
    cbn [fst snd] in Hk, Hfree.
    change (joinAll ((c, k) :: pairs) w)
      with (joinAll pairs (snd (join c (Some k) w))).
    set (w1 := snd (join c (Some k) w)).
    assert (Hids : getClientIds w1 = (getClientIds w ++ [k])%list /\
                   getClientCount w1 = S (getClientCount w) /\
                   getClient k w1 =
                     Some (mkClientInfo c k (clock w (ticks w))) /\
                   forall k', k' <> k -> getClient k' w1 = getClient k' w).
    { unfold w1. rewrite join_eq. cbv zeta. unfold joinId.
      pose proof Hk as Ht. apply truthy_nonempty in Ht. rewrite Ht.
      unfold getClientIds, getClientCount, getClient in *.
      cbn [snd clients stringOf].
      rewrite JsMapFacts.keys_set, JsMapFacts.size_set.
      unfold JsMap.has. rewrite Hfree.
      split; [reflexivity|]. split; [reflexivity|].
      split; [apply JsMapFacts.get_set_same|].
      intros k' Hk'. now apply JsMapFacts.get_set_other. }
    destruct Hids as (Hids & Hcount & Hget & Hother).
    assert (Hall1 : Forall (fun p => snd p <> "" /\
                                     getClient (snd p) w1 = None) pairs).
    { rewrite Forall_forall in *. intros p Hp.
      destruct (Hall' p Hp) as [Hne Hnone]. split; [exact Hne|].
      rewrite Hother; [exact Hnone|].
      intros E. apply Hnotin. rewrite <- E. now apply in_map. }
    destruct (IH w1 Hnd' Hall1) as (I1 & I2 & I3).
    split; [rewrite I1, Hids; now rewrite <- app_assoc|].
    split; [rewrite I2, Hcount; cbn; lia|].
    intros p [<-|Hp]; [|now apply I3].
    exists (clock w (ticks w)). cbn [fst snd].
    rewrite (joinAll_other k pairs w1); [exact Hget|exact Hnotin|].
    rewrite Forall_forall in *. intros p Hp. now apply Hall'.
Qed.

(** ** Clearing *)

(** X3.  [clear] never throws and empties the registry: no identity
    is left, the log gets one entry with the number of clients removed,
    and no connection is touched (nothing is written to the former
    clients, and the identity attached to each stays attached).  A
    [leave] that follows, by handle or by identity, returns [false] and
    leaves the registry empty. *)
Theorem clear_empties_registry_silently (w : World) :
  exists w',
    clear w = (Returns tt, w') /\
    getClientCount w' = 0 /\
    getClientIds w' = [] /\
    (forall k, getClient k w' = None) /\
    heap w' = heap w /\
    newLog w w' = [(info, RoomCleared (getClientCount w))] /\
    (forall clientOrId,
       fst (leave clientOrId w') = Returns false /\
       clients (snd (leave clientOrId w')) = []).
Proof.
  rewrite clear_eq. eexists. split; [reflexivity|].
  unfold newLog. cbn [socketLog]. rewrite skipn_app_length.
  do 5 (split; [reflexivity|]).
  intros clientOrId. rewrite leave_eq. cbv zeta.
  destruct (truthy (resolve clientOrId _)); split; reflexivity.
Qed.

(** ** Leaving *)

(** X4.  [leave] keeps the order of the identities that stay:
    [getClientIds()] afterwards is [getClientIds()] before without the
    resolved identity. *)
Theorem leave_keeps_order_of_remaining_identities
  (clientOrId : string + handle) (w : World) :
  RoomInv w ->
  getClientIds (snd (leave clientOrId w)) =
  match resolve clientOrId w with
  | Some i =>
      List.filter (fun k => negb (String.eqb k i)) (getClientIds w)
  | None => getClientIds w
  end.
Proof.
  intros Hinv. rewrite leave_eq. cbv zeta.
  destruct (resolve clientOrId w) as [i|]; cbn [truthy stringOf];
    [|reflexivity].
  destruct (String.eqb_spec i "") as [->|Hne]; cbn [negb snd].
  - unfold getClientIds. cbn [clients withSocketLog].
    symmetry. apply filter_absent.
    apply JsMapFacts.get_none_iff. exact (RoomInv_no_empty_key w Hinv).
  - unfold getClientIds. cbn [clients].
    apply keys_remove_filter, Hinv.
Qed.

Lemma join_supplied client s w :
  s <> "" ->
  exists w',
    join client (Some s) w = (Returns s, w') /\
    clients w' =
      JsMap.set s (mkClientInfo client s (clock w (ticks w))) (clients w) /\
    heap w' =
      updateObject client (fun o =>
        mkWebSocket (Some s) (readyState o) (sendFails o) (sent o)) (heap w) /\
    clock w' = clock w /\
    ticks w' = S (ticks w) /\
    (RoomInv w -> RoomInv w').
Proof.
  intros Hs. pose proof (RoomInv_join client (Some s) w) as Hinv.
  apply truthy_nonempty in Hs.
  rewrite join_eq in *. cbv zeta in *. unfold joinId in *.
  rewrite Hs in *. cbn [stringOf snd] in Hinv |- *.
  eexists. split; [reflexivity|].
  do 4 (split; [reflexivity|]). exact Hinv.
Qed.

Lemma leave_resolved clientOrId i w :
  resolve clientOrId w = Some i ->
  i <> "" ->
  exists w',
    leave clientOrId w = (Returns (JsMap.has i (clients w)), w') /\
    clients w' = JsMap.remove i (clients w) /\
    heap w' = heap w.
Proof.
  intros Hres Hi. apply truthy_nonempty in Hi.
  rewrite leave_eq. cbv zeta. rewrite Hres, Hi. cbn [stringOf].
  eexists. split; [reflexivity|]. now split.
Qed.

Lemma clientId_attached client s hp :
  clientId
    (updateObject client (fun o =>
       mkWebSocket (Some s) (readyState o) (sendFails o) (sent o)) hp client) =
  Some s.
Proof. unfold updateObject. now rewrite Nat.eqb_refl. Qed.

Lemma clientId_attached_other client h s hp :
  h <> client ->
  updateObject client (fun o =>
    mkWebSocket (Some s) (readyState o) (sendFails o) (sent o)) hp h = hp h.
Proof.
  intros Hh. unfold updateObject.
  now destruct (Nat.eqb_spec h client); [contradiction|].
Qed.

(** X5.  A connection that joins a second time under another identity
    keeps its first record: the handle now resolves to the second
    identity only, so [leave(handle)] removes the second record, a
    further [leave(handle)] returns [false], and the first record, with
    the same connection, stays in the registry until it is removed by its
    identity. *)
Theorem rejoin_under_new_identity_keeps_old_record (client : handle)
  (a b : string) (w : World) :
  RoomInv w -> a <> "" -> b <> "" -> a <> b ->
  exists w1 w2 w3 w4,
    join client (Some a) w = (Returns a, w1) /\
    join client (Some b) w1 = (Returns b, w2) /\
    leave (inr client) w2 = (Returns true, w3) /\
    getClient b w3 = None /\
    getClient a w3 = Some (mkClientInfo client a (clock w (ticks w))) /\
    leave (inr client) w3 = (Returns false, w4) /\
    getClient a w4 = Some (mkClientInfo client a (clock w (ticks w))).
Proof.
  intros Hinv Ha Hb Hab.
  destruct (join_supplied client a w Ha)
    as (w1 & E1 & C1 & H1 & _ & _ & I1).
  destruct (join_supplied client b w1 Hb)
    as (w2 & E2 & C2 & H2 & _ & _ & I2).
  assert (Hres2 : resolve (inr client) w2 = Some b).
  { unfold resolve. rewrite H2. apply clientId_attached. }
  destruct (leave_resolved (inr client) b w2 Hres2 Hb)
    as (w3 & E3 & C3 & H3).
  assert (Hres3 : resolve (inr client) w3 = Some b).
  { unfold resolve. rewrite H3. exact Hres2. }
  destruct (leave_resolved (inr client) b w3 Hres3 Hb)
    as (w4 & E4 & C4 & H4).
  pose proof (I2 (I1 Hinv)) as [Hnd2 _]. unfold getClientIds in Hnd2.
  assert (Hb2 : JsMap.has b (clients w2) = true).
  { unfold JsMap.has. now rewrite C2, JsMapFacts.get_set_same. }
  assert (Hb3 : JsMap.get b (clients w3) = None).
  { rewrite C3. now apply JsMapFacts.get_remove_same. }
  assert (Ha2 : JsMap.get a (clients w2) =
                Some (mkClientInfo client a (clock w (ticks w)))).
  { rewrite C2, JsMapFacts.get_set_other by congruence.
    rewrite C1. apply JsMapFacts.get_set_same. }
  assert (Ha3 : JsMap.get a (clients w3) =
                Some (mkClientInfo client a (clock w (ticks w)))).
  { rewrite C3, JsMapFacts.get_remove_other by congruence. exact Ha2. }
  rewrite Hb2 in E3. unfold JsMap.has in E4. rewrite Hb3 in E4.
  exists w1, w2, w3, w4. unfold getClient.
  repeat (split; [assumption|]).
  rewrite C4, JsMapFacts.get_remove_other by congruence. exact Ha3.
Qed.

(** X6.  When a second connection joins under the identity of a first
    one, the first handle still resolves to that identity: [leave] with
    the first handle removes the record of the second connection, which
    is then found under no identity it was not registered under before,
    although the identity stays attached to it. *)
Theorem leave_by_superseded_handle_removes_successor (c1 c2 : handle)
  (a : string) (w : World) :
  RoomInv w -> a <> "" -> c1 <> c2 ->
  exists w1 w2 w3,
    join c1 (Some a) w = (Returns a, w1) /\
    join c2 (Some a) w1 = (Returns a, w2) /\
    getClient a w2 = Some (mkClientInfo c2 a (clock w (S (ticks w)))) /\
    leave (inr c1) w2 = (Returns true, w3) /\
    getClient a w3 = None /\
    (forall k, k <> a -> getClient k w3 = getClient k w) /\
    clientId (heap w3 c2) = Some a.
Proof.
  intros Hinv Ha Hc.
  destruct (join_supplied c1 a w Ha)
    as (w1 & E1 & C1 & H1 & K1 & T1 & I1).
  destruct (join_supplied c2 a w1 Ha)
    as (w2 & E2 & C2 & H2 & _ & _ & I2).
  assert (Hres : resolve (inr c1) w2 = Some a).
  { unfold resolve. rewrite H2, clientId_attached_other by exact Hc.
    rewrite H1. apply clientId_attached. }
  destruct (leave_resolved (inr c1) a w2 Hres Ha) as (w3 & E3 & C3 & H3).
  pose proof (I2 (I1 Hinv)) as [Hnd2 _]. unfold getClientIds in Hnd2.
  assert (Ha2 : JsMap.get a (clients w2) =
                Some (mkClientInfo c2 a (clock w (S (ticks w))))).
  { rewrite C2, K1, T1. apply JsMapFacts.get_set_same. }
  unfold JsMap.has in E3. rewrite Ha2 in E3.
  exists w1, w2, w3. unfold getClient.
  repeat (split; [assumption|]).
  split; [rewrite C3; now apply JsMapFacts.get_remove_same|].
  split.
  - intros k Hk. rewrite C3, JsMapFacts.get_remove_other by exact Hk.
    rewrite C2, JsMapFacts.get_set_other by exact Hk.
    rewrite C1. now apply JsMapFacts.get_set_other.
  - rewrite H3, H2. apply clientId_attached.
Qed.

(** ** What the accessors tell *)

(** X7.  On every registry reached from a new room the accessors
    agree: [getClientCount()] is the number of [getClientIds()], an
    identity is listed exactly when [getClient] finds a record for it, and
    the record found under an identity carries that identity. *)
Theorem accessors_agree_on_reachable_registries {R : Runtime}
  (w0 : World) (calls : list RoomCall) (k : string) :
  getClientCount (runCalls calls (snd (Room_new w0))) =
    List.length (getClientIds (runCalls calls (snd (Room_new w0)))) /\
  (In k (getClientIds (runCalls calls (snd (Room_new w0)))) <->
   exists r, getClient k (runCalls calls (snd (Room_new w0))) = Some r) /\
  (forall r,
     getClient k (runCalls calls (snd (Room_new w0))) = Some r ->
     id r = k /\ In (k, r) (clients (runCalls calls (snd (Room_new w0))))).
Proof.
  pose proof (RoomInv_reachable w0 calls) as Hinv.
  set (w := runCalls calls (snd (Room_new w0))) in *.
  split; [unfold getClientCount, getClientIds, JsMap.size, JsMap.keys;
          now rewrite length_map|].
  split.
  - unfold getClientIds, getClient.
    rewrite <- JsMapFacts.has_true_iff. unfold JsMap.has.
    destruct (JsMap.get k (clients w)) as [r|]; split.
    + intros _. now exists r.
    + reflexivity.
    + discriminate.
    + intros [r Hr]. discriminate.
  - intros r Hr. split.
    + now destruct (RoomInv_key_nonempty w k r Hinv Hr).
    + now apply JsMapFacts.get_in.
Qed.


(** ** Who is written to *)

Lemma attemptWrites_per_registration {R : Runtime} message w h entries :
  flat_map (attemptWrites w message h) entries =
  match JSON_stringify message with
  | inl _ => []
  | inr text =>
      if Z.eqb (readyState (heap w h)) 1 then
        match sendFails (heap w h) text with
        | Some _ => []
        | None =>
            List.repeat text
              (List.length
                 (List.filter (fun e => Nat.eqb h (ws (snd e))) entries))
        end
      else []
  end.
Proof.
  induction entries as [|e entries IH]; cbn [flat_map filter].
  - destruct (JSON_stringify message); [reflexivity|].
    destruct (Z.eqb _ 1); [|reflexivity].
    now destruct (sendFails (heap w h) s).
  - rewrite IH. unfold attemptWrites, delivery. cbv zeta.
    destruct (Nat.eqb_spec h (ws (snd e))) as [<-|Hne].
    + destruct (JSON_stringify message) as [err|text];
        destruct (Z.eqb (readyState (heap w h)) 1);
        try reflexivity.
      destruct (sendFails (heap w h) text); reflexivity.
    + destruct (Z.eqb (readyState (heap w (ws (snd e)))) 1);
        [|reflexivity].
      destruct (JSON_stringify message) as [err|text]; [reflexivity|].
      destruct (sendFails (heap w (ws (snd e))) text); reflexivity.
Qed.

(** X9.  A broadcast writes to a connection once per identity it is
    registered under, and only when the payload serialises, the
    connection is open and its write does not throw: a connection
    registered twice gets the payload twice, and a connection that is not
    registered is never written to. *)
Theorem broadcast_writes_once_per_registration {R : Runtime}
  (message : JsValue) (w : World) :
  exists w',
    forwardMessage message w = (Returns tt, w') /\
    (forall h,
       newWrites w w' h =
       match JSON_stringify message with
       | inl _ => []
       | inr text =>
           if Z.eqb (readyState (heap w h)) 1 then
             match sendFails (heap w h) text with
             | Some _ => []
             | None => List.repeat text (registrations h w)
             end
           else []
       end) /\
    (forall h, registrations h w = 0 -> sent (heap w' h) = sent (heap w h)).
Proof.
  destruct (forwardMessage_spec message w) as (w' & E & _ & _ & W).
  exists w'. split; [exact E|].
  assert (N : forall h,
    newWrites w w' h =
    match JSON_stringify message with
    | inl _ => []
    | inr text =>
        if Z.eqb (readyState (heap w h)) 1 then
          match sendFails (heap w h) text with
          | Some _ => []
          | None => List.repeat text (registrations h w)
          end
        else []
    end).
  { intros h. unfold newWrites. rewrite W, skipn_app_length.
    apply attemptWrites_per_registration. }
  split; [exact N|].
  intros h Hzero. rewrite W, attemptWrites_per_registration.
  unfold registrations in Hzero. rewrite Hzero. cbn [List.repeat].
  destruct (JSON_stringify message); [now rewrite app_nil_r|].
  destruct (Z.eqb _ 1); [|now rewrite app_nil_r].
  destruct (sendFails (heap w h) s); now rewrite app_nil_r.
Qed.

(** X10.  [sendToClient] touches no connection but the one of the
    record it found: every other connection object is as before, a call
    that returns [false] leaves all of them as before, and no call
    changes the identity attached to a connection. *)
Theorem sendToClient_writes_only_to_target {R : Runtime}
  (k : string) (message : JsValue) (w : World) :
  (fst (sendToClient k message w) = Returns false ->
   heap (snd (sendToClient k message w)) = heap w) /\
  (forall clientInfo h,
     getClient k w = Some clientInfo ->
     h <> ws clientInfo ->
     heap (snd (sendToClient k message w)) h = heap w h) /\
  (forall h,
     clientId (heap (snd (sendToClient k message w)) h) =
     clientId (heap w h)).
Proof.
  rewrite sendToClient_eq. unfold getClient.
  destruct (JsMap.get k (clients w)) as [ci|].
  - destruct (delivery w message ci) as [text| |e]; cbn [fst snd].
    + split; [discriminate|]. split.
      * intros ci' h [= <-] Hh. cbn [heap withSocketLog withHeap].
        unfold updateObject.
        now destruct (Nat.eqb_spec h (ws ci)); [contradiction|].
      * intros h. cbn [heap withSocketLog withHeap].
        apply clientId_written.
    + repeat split.
    + repeat split.
  - repeat split.
Qed.

(** ** Generated identities *)

(** X11.  Joins without an identity get distinct identities whenever
    the random bytes they draw are distinct, and a join without an
    identity moves the random source on by the eight bytes it took, so
    the next such join draws the following eight. *)
Theorem distinct_random_bytes_give_distinct_identities :
  (forall c1 c2 w1 w2,
     nextBytes w1 <> nextBytes w2 ->
     fst (join c1 None w1) <> fst (join c2 None w2)) /\
  (forall c w,
     nextBytes (snd (join c None w)) =
     List.map (entropy w) (List.seq (drawn w + 8) 8)).
Proof.
  split.
  - intros c1 c2 w1 w2 Hbytes. rewrite !join_eq. cbv zeta.
    cbn [fst joinId truthy]. intros Hret. apply Hbytes.
    assert (Hid : generatedId w1 = generatedId w2) by congruence.
    pose proof (hex_roundtrip (nextBytes w1)) as Hr1.
    pose proof (hex_roundtrip (nextBytes w2)) as Hr2.
    change (Buffer_toString_hex (nextBytes w1)) with (generatedId w1) in Hr1.
    change (Buffer_toString_hex (nextBytes w2)) with (generatedId w2) in Hr2.
    congruence.
  - intros c w. rewrite join_eq. reflexivity.
Qed.

(** ** The coordinator, further *)

(** X12.  The ['message'] handler never throws, whatever the text: it
    logs the receipt first, leaves the registry as it is, and changes
    neither the state nor the attached identity of any connection. *)
Theorem onMessage_never_throws {R : Runtime} (messageStr : string)
  (w : World) :
  exists w' rest,
    onMessage messageStr w = (Returns tt, w') /\
    newLog w w' = (info, MessageReceived messageStr) :: rest /\
    clients w' = clients w /\
    getClientCount w' = getClientCount w /\
    (forall h,
       clientId (heap w' h) = clientId (heap w h) /\
       readyState (heap w' h) = readyState (heap w h)).
Proof.
  destruct (JSON_parse messageStr) as [e|v] eqn:Hparse.
  - rewrite (onMessage_malformed messageStr e w Hparse).
    do 2 eexists. split; [reflexivity|].
    unfold newLog. cbn [socketLog withSocketLog].
    rewrite skipn_app_length. split; [reflexivity|]. now repeat split.
  - rewrite (onMessage_wellformed messageStr v w Hparse).
    set (w1 := withSocketLog _ w).
    destruct (forwardMessage_spec v w1) as (w' & E & F & L & _).
    destruct F as (Fc & _ & _ & _ & _ & _ & Fid & Ft).
    exists w'. eexists. split; [exact E|].
    split.
    { unfold newLog. rewrite L. unfold w1. cbn [socketLog withSocketLog].
      rewrite <- app_assoc, skipn_app_length. cbn [app]. reflexivity. }
    unfold getClientCount. rewrite Fc. split; [reflexivity|].
    split; [reflexivity|].
    intros h. split; [apply Fid | apply Ft].
Qed.

(** X13.  A text that parses is relayed to every registered client,
    the sender included: the handler returns normally, and every record
    whose connection is open and accepts the write gets the parsed value,
    serialised again, written to its connection; the log carries the
    receipt, the start of the broadcast, the failures and the counts. *)
Theorem wellformed_message_is_relayed_to_every_client {R : Runtime}
  (messageStr : string) (v : JsValue) (w : World) :
  JSON_parse messageStr = inr v ->
  exists w',
    onMessage messageStr w = (Returns tt, w') /\
    (forall h,
       sent (heap w' h) =
       (sent (heap w h) ++ flat_map (attemptWrites w v h) (clients w))%list) /\
    (forall entry text,
       In entry (clients w) ->
       delivery w v (snd entry) = Delivered text ->
       In text (newWrites w w' (ws (snd entry)))) /\
    newLog w w' =
      ((info, MessageReceived messageStr) ::
       (info, BroadcastStart (getClientCount w)) ::
       flat_map (attemptLog w v) (clients w) ++
       [(info, BroadcastDone (countDelivered w v (clients w))
                 (countFailed w v (clients w)))])%list.
Proof.
  intros Hparse. rewrite (onMessage_wellformed messageStr v w Hparse).
  pose proof (onlySends_logged w (info, MessageReceived messageStr)) as F1.
  set (w1 := withSocketLog _ w) in *.
  assert (T : sameTransport w1 w) by apply F1.
  destruct (forwardMessage_spec v w1) as (w' & E & _ & L & W).
  assert (W' : forall h,
    sent (heap w' h) =
    (sent (heap w h) ++ flat_map (attemptWrites w v h) (clients w))%list).
  { intros h. rewrite W.
    now rewrite (attemptWrites_sameTransport w1 w) by exact T. }
  exists w'. split; [exact E|]. split; [exact W'|]. split.
  - intros entry text Hin D. unfold newWrites.
    rewrite W', skipn_app_length. apply in_flat_map.
    exists entry. split; [exact Hin|].
    unfold attemptWrites. rewrite D, Nat.eqb_refl. now left.
  - unfold newLog. rewrite L.
    rewrite (attemptLog_sameTransport w1 w),
      (countDelivered_sameTransport w1 w),
      (countFailed_sameTransport w1 w) by exact T.
    unfold w1. cbn [socketLog withSocketLog clients].
    rewrite <- app_assoc, skipn_app_length. reflexivity.
Qed.

(** X14.  The text of the cookie header has no influence on what the
    ['connection'] handler does to the registry, the connections, the log,
    the random source and the clock, nor on its outcome: it only shows in
    what is printed to the console. *)
Theorem cookie_text_is_ignored {R : Runtime} (ws : handle)
  (c1 c2 : string) (w : World) :
  fst (onConnection ws (Some c1) w) = fst (onConnection ws (Some c2) w) /\
  clients (snd (onConnection ws (Some c1) w)) =
    clients (snd (onConnection ws (Some c2) w)) /\
  heap (snd (onConnection ws (Some c1) w)) =
    heap (snd (onConnection ws (Some c2) w)) /\
  socketLog (snd (onConnection ws (Some c1) w)) =
    socketLog (snd (onConnection ws (Some c2) w)) /\
  drawn (snd (onConnection ws (Some c1) w)) =
    drawn (snd (onConnection ws (Some c2) w)) /\
  ticks (snd (onConnection ws (Some c1) w)) =
    ticks (snd (onConnection ws (Some c2) w)) /\
  consoleOut (snd (onConnection ws (Some c1) w)) =
    (consoleOut w ++ [Some c1])%list.
Proof.
  rewrite !onConnection_with_cookie_eq, !accepted_eq.
  destruct (JSON_stringify _) as [e|text]; [now repeat split|].
  destruct (sendFails (heap w ws) text); now repeat split.
Qed.

(** X15.  When the write of the acknowledgment throws, the handler
    throws that error, after the client was registered: the client stays
    in the registry under its generated identity, which is attached to
    the connection, and nothing was written to it. *)
Theorem failed_acknowledgment_leaves_client_registered {R : Runtime}
  (ws : handle) (cookie : string) (w : World) (text : string)
  (e : JsError) :
  JSON_stringify (connectedAck (toISOString (clock w (S (ticks w))))) =
    inr text ->
  sendFails (heap w ws) text = Some e ->
  exists w',
    onConnection ws (Some cookie) w = (Throws e, w') /\
    getClient (generatedId w) w' =
      Some (mkClientInfo ws (generatedId w) (clock w (ticks w))) /\
    clientId (heap w' ws) = Some (generatedId w) /\
    sent (heap w' ws) = sent (heap w ws).
Proof.
  intros Hack Hsend.
  rewrite onConnection_with_cookie_eq, Hack, Hsend, accepted_eq.
  eexists. split; [reflexivity|].
  unfold getClient. cbn [clients heap withTicks].
  split; [apply JsMapFacts.get_set_same|].
  unfold updateObject. rewrite Nat.eqb_refl. now split.
Qed.

(** X16.  For a connection whose handshake has no cookie header the
    handler throws a [TypeError] before it registers anything: the
    registry and every connection are as before, no identity was
    generated, the clock was not read, and the log only tells that a
    connection was opened. *)
Theorem connection_without_cookie_throws_before_join {R : Runtime}
  (ws : handle) (w : World) :
  exists e w',
    onConnection ws None w = (Throws e, w') /\
    errorName e = "TypeError" /\
    clients w' = clients w /\
    heap w' = heap w /\
    drawn w' = drawn w /\
    ticks w' = ticks w /\
    newLog w w' = [(info, ConnectionOpened)] /\
    consoleOut w' = (consoleOut w ++ [None])%list.
Proof.
  rewrite onConnection_without_cookie. do 2 eexists.
  split; [reflexivity|]. unfold newLog.
  cbn [socketLog withConsoleOut withSocketLog].
  rewrite skipn_app_length. now repeat split.
Qed.

(** X17.  Accepting a connection and then closing it gives the
    registry back as it was, records and order, whether or not the
    acknowledgment could be written, provided the generated identity was
    not registered before; the ['close'] handler returns normally. *)
Theorem connect_then_close_restores_registry {R : Runtime} (ws : handle)
  (cookie : string) (w : World) :
  getClient (generatedId w) w = None ->
  exists w2,
    onClose ws (snd (onConnection ws (Some cookie) w)) = (Returns tt, w2) /\
    clients w2 = clients w /\
    getClientIds w2 = getClientIds w.
Proof.
  intros Hfree. unfold getClient in Hfree.
  set (w1 := snd (onConnection ws (Some cookie) w)).
  assert (H1 : clients w1 =
               JsMap.set (generatedId w)
                 (mkClientInfo ws (generatedId w) (clock w (ticks w)))
                 (clients w) /\
               clientId (heap w1 ws) = Some (generatedId w)).
  { unfold w1. rewrite onConnection_with_cookie_eq, accepted_eq.
    destruct (JSON_stringify _) as [e|text];
      [cbn; unfold updateObject; now rewrite Nat.eqb_refl|].
    destruct (sendFails (heap w ws) text);
      cbn [snd clients heap withTicks withHeap].
    - unfold updateObject. now rewrite Nat.eqb_refl.
    - rewrite clientId_written. unfold updateObject.
      now rewrite Nat.eqb_refl. }
  destruct H1 as [Hc Hid].
  set (w1' := withSocketLog (fun l => l ++ [(info, ConnectionClosed)])%list w1).
  destruct (leave_resolved (inr ws) (generatedId w) w1' Hid
              (generatedId_nonempty w)) as (w2 & E & C & _).
  exists w2.
  assert (Hw2 : clients w2 = clients w).
  { rewrite C. unfold w1'. cbn [clients withSocketLog]. rewrite Hc.
    now apply remove_set_absent. }
  split.
  - unfold onClose, bind, SocketLogger, modify. cbn beta iota.
    fold w1'. rewrite E. reflexivity.
  - split; [exact Hw2|]. unfold getClientIds. now rewrite Hw2.
Qed.

(** * The further properties at concrete inputs *)

Lemma fourClients_inv : RoomInv fourClients.
Proof.
  exact (RoomInv_reachable faultyWorld
           [CallJoin 0 (Some "A"); CallJoin 1 (Some "B");
            CallJoin 2 (Some "C"); CallJoin 3 (Some "D")]).
Qed.

(** X2 at a fresh world: A, B and C join in a row. *)
Lemma joins_with_distinct_identities_witness :
  NoDup (List.map snd [(0, "A"); (1, "B"); (2, "C")]) /\
  Forall (fun p => snd p <> "" /\ getClient (snd p) freshWorld = None)
    [(0, "A"); (1, "B"); (2, "C")] /\
  getClientIds (joinAll [(0, "A"); (1, "B"); (2, "C")] freshWorld) =
    (getClientIds freshWorld ++
     List.map snd [(0, "A"); (1, "B"); (2, "C")])%list /\
  getClientCount (joinAll [(0, "A"); (1, "B"); (2, "C")] freshWorld) =
    getClientCount freshWorld + List.length [(0, "A"); (1, "B"); (2, "C")] /\
  forall p,
    In p [(0, "A"); (1, "B"); (2, "C")] ->
    exists t,
      getClient (snd p) (joinAll [(0, "A"); (1, "B"); (2, "C")] freshWorld) =
      Some (mkClientInfo (fst p) (snd p) t).
Proof.
  assert (Hnd : NoDup (List.map snd [(0, "A"); (1, "B"); (2, "C")])).
  { repeat constructor; cbn; intuition discriminate. }
  assert (Hall : Forall (fun p => snd p <> "" /\
                                  getClient (snd p) freshWorld = None)
                   [(0, "A"); (1, "B"); (2, "C")]).
  { repeat constructor; cbn; discriminate. }
  split; [exact Hnd|]. split; [exact Hall|].
  exact (joins_with_distinct_identities [(0, "A"); (1, "B"); (2, "C")]
           freshWorld Hnd Hall).
Defined.

(** X4 in the room of four: B leaves by its identity. *)
Lemma leave_keeps_order_of_remaining_identities_witness :
  RoomInv fourClients /\
  getClientIds (snd (leave (inl "B") fourClients)) =
  match resolve (inl "B") fourClients with
  | Some i =>
      List.filter (fun k => negb (String.eqb k i)) (getClientIds fourClients)
  | None => getClientIds fourClients
  end.
Proof.
  split; [exact fourClients_inv|].
  exact (leave_keeps_order_of_remaining_identities (inl "B") fourClients
           fourClients_inv).
Defined.

(** X5 in the room of four: connection 7 joins as E and then as F. *)
Lemma rejoin_under_new_identity_keeps_old_record_witness :
  RoomInv fourClients /\ "E" <> "" /\ "F" <> "" /\ "E" <> "F" /\
  exists w1 w2 w3 w4,
    join 7 (Some "E") fourClients = (Returns "E", w1) /\
    join 7 (Some "F") w1 = (Returns "F", w2) /\
    leave (inr 7) w2 = (Returns true, w3) /\
    getClient "F" w3 = None /\
    getClient "E" w3 =
      Some (mkClientInfo 7 "E" (clock fourClients (ticks fourClients))) /\
    leave (inr 7) w3 = (Returns false, w4) /\
    getClient "E" w4 =
      Some (mkClientInfo 7 "E" (clock fourClients (ticks fourClients))).
Proof.
  assert (Ha : "E" <> "") by discriminate.
  assert (Hb : "F" <> "") by discriminate.
  assert (Hab : "E" <> "F") by discriminate.
  split; [exact fourClients_inv|].
  split; [exact Ha|]. split; [exact Hb|]. split; [exact Hab|].
  exact (rejoin_under_new_identity_keeps_old_record 7 "E" "F" fourClients
           fourClients_inv Ha Hb Hab).
Defined.

(** X6 in the room of four: connections 7 and 8 both join as E. *)
Lemma leave_by_superseded_handle_removes_successor_witness :
  RoomInv fourClients /\ "E" <> "" /\ 7 <> 8 /\
  exists w1 w2 w3,
    join 7 (Some "E") fourClients = (Returns "E", w1) /\
    join 8 (Some "E") w1 = (Returns "E", w2) /\
    getClient "E" w2 =
      Some (mkClientInfo 8 "E" (clock fourClients (S (ticks fourClients)))) /\
    leave (inr 7) w2 = (Returns true, w3) /\
    getClient "E" w3 = None /\
    (forall k, k <> "E" -> getClient k w3 = getClient k fourClients) /\
    clientId (heap w3 8) = Some "E".
Proof.
  assert (Ha : "E" <> "") by discriminate.
  assert (Hc : 7 <> 8) by discriminate.
  split; [exact fourClients_inv|]. split; [exact Ha|]. split; [exact Hc|].
  exact (leave_by_superseded_handle_removes_successor 7 8 "E" fourClients
           fourClients_inv Ha Hc).
Defined.


(** X11 at a fresh world and at the same world eight bytes later. *)
Lemma distinct_random_bytes_give_distinct_identities_witness :
  nextBytes freshWorld <> nextBytes (withDrawn 8 freshWorld) /\
  fst (join 0 None freshWorld) <> fst (join 1 None (withDrawn 8 freshWorld)).
Proof.
  assert (Hbytes : nextBytes freshWorld <> nextBytes (withDrawn 8 freshWorld)).
  { vm_compute. discriminate. }
  split; [exact Hbytes|].
  exact (proj1 distinct_random_bytes_give_distinct_identities 0 1 freshWorld
           (withDrawn 8 freshWorld) Hbytes).
Defined.

(** X13 in the room of four: a JSON array arrives. *)
Lemma wellformed_message_is_relayed_to_every_client_witness :
  JSON_parse "[1,2]" = inr (JArr [JNum 1; JNum 2]) /\
  exists w',
    onMessage "[1,2]" fourClients = (Returns tt, w') /\
    (forall h,
       sent (heap w' h) =
       (sent (heap fourClients h) ++
        flat_map (attemptWrites fourClients (JArr [JNum 1; JNum 2]) h)
          (clients fourClients))%list) /\
    (forall entry text,
       In entry (clients fourClients) ->
       delivery fourClients (JArr [JNum 1; JNum 2]) (snd entry) =
         Delivered text ->
       In text (newWrites fourClients w' (ws (snd entry)))) /\
    newLog fourClients w' =
      ((info, MessageReceived "[1,2]") ::
       (info, BroadcastStart (getClientCount fourClients)) ::
       flat_map (attemptLog fourClients (JArr [JNum 1; JNum 2]))
         (clients fourClients) ++
       [(info,
         BroadcastDone
           (countDelivered fourClients (JArr [JNum 1; JNum 2])
              (clients fourClients))
           (countFailed fourClients (JArr [JNum 1; JNum 2])
              (clients fourClients)))])%list.
Proof.
  assert (Hparse : JSON_parse "[1,2]" = inr (JArr [JNum 1; JNum 2])).
  { vm_compute; reflexivity. }
  split; [exact Hparse|].
  exact (wellformed_message_is_relayed_to_every_client "[1,2]"
           (JArr [JNum 1; JNum 2]) fourClients Hparse).
Defined.

(** X15 on the transport whose connection 2 throws on every write. *)
Lemma failed_acknowledgment_leaves_client_registered_witness :
  JSON_stringify
    (connectedAck (toISOString (clock faultyWorld (S (ticks faultyWorld))))) =
    inr (refStringifyValue (connectedAck "1970-01-01T00:00:01.000Z")) /\
  sendFails (heap faultyWorld 2)
    (refStringifyValue (connectedAck "1970-01-01T00:00:01.000Z")) =
    Some (mkError "Error" "socket hang up") /\
  exists w',
    onConnection 2 (Some "user=bob") faultyWorld =
      (Throws (mkError "Error" "socket hang up"), w') /\
    getClient (generatedId faultyWorld) w' =
      Some (mkClientInfo 2 (generatedId faultyWorld)
              (clock faultyWorld (ticks faultyWorld))) /\
    clientId (heap w' 2) = Some (generatedId faultyWorld) /\
    sent (heap w' 2) = sent (heap faultyWorld 2).
Proof.
  assert (Hack :
    JSON_stringify
      (connectedAck
         (toISOString (clock faultyWorld (S (ticks faultyWorld))))) =
    inr (refStringifyValue (connectedAck "1970-01-01T00:00:01.000Z"))).
  { vm_compute; reflexivity. }
  assert (Hsend :
    sendFails (heap faultyWorld 2)
      (refStringifyValue (connectedAck "1970-01-01T00:00:01.000Z")) =
    Some (mkError "Error" "socket hang up")).
  { reflexivity. }
  split; [exact Hack|]. split; [exact Hsend|].
  exact (failed_acknowledgment_leaves_client_registered 2 "user=bob"
           faultyWorld _ _ Hack Hsend).
Defined.

(** X17 at a fresh world. *)
Lemma connect_then_close_restores_registry_witness :
  getClient (generatedId freshWorld) freshWorld = None /\
  exists w2,
    onClose 0 (snd (onConnection 0 (Some "user=alice") freshWorld)) =
      (Returns tt, w2) /\
    clients w2 = clients freshWorld /\
    getClientIds w2 = getClientIds freshWorld.
Proof.
  assert (Hfree : getClient (generatedId freshWorld) freshWorld = None).
  { reflexivity. }
  split; [exact Hfree|].
  exact (connect_then_close_restores_registry 0 "user=alice" freshWorld
           Hfree).
Defined.
